(** * HomobieFrontend portal: role routing, route guards and the upload widget

    A shallow embedding of the decision logic of
    - [src/client/src/App.tsx]          (react-router variant of the app),
    - [src/unnamed/part_000]            (wouter variant of the app),
    - [src/client/src/components/ui/file-uploader.tsx] (the upload widget),
    together with the properties the specification states about them. *)

From stdpp Require Import base strings list gmap.

Open Scope string_scope.

(** ** The fragment of JavaScript the sources rely on *)

Module Js.

(** Values that can come out of a property read on an object literal:
    a string, [undefined], or one of the built-in function/object values
    inherited from [Object.prototype]. *)
Inductive value : Type :=
| Undefined
| Str (s : string)
| Function (name : string)
| Object (name : string).

#[global] Instance value_eq_dec : EqDecision value.
Proof. solve_decision. Defined.

(** ToBoolean: [undefined] and the empty string are falsy, every other
    string and every object (functions included) is truthy. *)
Definition truthy (v : value) : bool :=
  match v with
  | Undefined => false
  | Str s => negb (String.eqb s EmptyString)
  | Function _ => true
  | Object _ => true
  end.

(** [a || b] *)
Definition or (a b : value) : value := if truthy a then a else b.

(** The properties every object literal inherits from [Object.prototype].
    [__proto__] is an accessor whose getter yields the receiver's
    prototype, which for an object literal is [Object.prototype] itself. *)
Definition ObjectPrototype : gmap string value :=
  list_to_map
    [ ("constructor", Function "Object");
      ("hasOwnProperty", Function "hasOwnProperty");
      ("isPrototypeOf", Function "isPrototypeOf");
      ("propertyIsEnumerable", Function "propertyIsEnumerable");
      ("toLocaleString", Function "toLocaleString");
      ("toString", Function "toString");
      ("valueOf", Function "valueOf");
      ("__defineGetter__", Function "__defineGetter__");
      ("__defineSetter__", Function "__defineSetter__");
      ("__lookupGetter__", Function "__lookupGetter__");
      ("__lookupSetter__", Function "__lookupSetter__");
      ("__proto__", Object "Object.prototype") ].

(** [obj[key]] on an object literal with own properties [own]: the own
    property if there is one, else the inherited one, else [undefined]. *)
Definition get (own : gmap string value) (key : string) : value :=
  match own !! key with
  | Some v => v
  | None => default Undefined (ObjectPrototype !! key)
  end.

(** An object literal [{ k1: v1, ..., kn: vn }]: properties are defined
    left to right, a later duplicate key replacing an earlier one. *)
Definition literal (props : list (string * value)) : gmap string value :=
  foldl (fun m kv => <[kv.1 := kv.2]> m) ∅ props.

End Js.

(** ** The session provider's contract and React's hook bookkeeping *)

Module React.

(** An object or function reference; [Object.is] on two references
    compares these identities. *)
Definition ref_id := nat.

(** The session: a user object (identified by its reference) carrying a
    [role] attribute. *)
Record User : Type := mkUser { userRef : ref_id; role : string }.

(** What [useAuth()] hands to a component on one render:
    [{ user: Session | null, isLoading: boolean, logout?: () => void }]. *)
Record Auth : Type := mkAuth {
  user : option User;
  isLoading : bool;
  logout : option ref_id
}.

(** The dependency array [[user, logout]] of one render, by identity. *)
Definition deps (a : Auth) : option ref_id * option ref_id :=
  (userRef <$> user a, logout a).

(** What a component returns. [Navigate] covers react-router's
    [<Navigate to=.../>] and wouter's [<Redirect to=.../>];
    [RoleBasedRedirect] is the imported redirect component;
    [Protected] is the authenticated layout shell around the child view;
    [Children] is the public page passed in. *)
Inductive View : Type :=
| Spinner
| Navigate (to : Js.value)
| RoleBasedRedirect
| Protected
| Children.

#[global] Instance View_eq_dec : EqDecision View.
Proof. solve_decision. Defined.

(** Does this view send the browser somewhere else? *)
Definition redirects (v : View) : bool :=
  match v with
  | Navigate _ | RoleBasedRedirect => true
  | Spinner | Protected | Children => false
  end.

(** Per-instance memory of a guard between renders: the cell of
    [useRef<string | null>(null)] and the dependency array of the last
    effect that ran ([None] until the first commit). *)
Record Guard : Type := mkGuard {
  initialRoleRef : option string;
  lastDeps : option (option ref_id * option ref_id)
}.

(** A freshly mounted guard. *)
Definition mount : Guard :=
  {| initialRoleRef := None; lastDeps := None |}.

(** [useEffect(f, deps)]: [f] runs after the first commit and after every
    commit whose dependency array differs from the previous one. *)
Definition effect_due (g : Guard) (a : Auth) : bool :=
  match lastDeps g with
  | None => true
  | Some d => negb (bool_decide (d = deps a))
  end.

(** [!initialRoleRef.current]: [null] and the empty string are falsy. *)
Definition ref_is_falsy (r : option string) : bool :=
  match r with
  | None => true
  | Some s => String.eqb s EmptyString
  end.

(** [initialRoleRef.current !== user.role] *)
Definition ref_differs (r : option string) (role : string) : bool :=
  match r with
  | None => true
  | Some s => negb (String.eqb s role)
  end.

(** One render of a guard instance followed by its commit: the effect
    body [effect] runs when it is due, may rewrite the ref cell and may
    invoke functions (here only [logout]); the result lists them. *)
Definition commit
    (effect : Auth -> option string -> option string * list ref_id)
    (g : Guard) (a : Auth) : Guard * list ref_id :=
  if effect_due g a then
    let '(cur, calls) := effect a (initialRoleRef g) in
    ({| initialRoleRef := cur; lastDeps := Some (deps a) |}, calls)
  else (g, []).

(** A sequence of renders of one mounted instance of [component]:
    the final instance memory, the views returned and the functions
    invoked, in order. *)
Fixpoint renders
    (component : Guard -> Auth -> Guard * View * list ref_id)
    (g : Guard) (props : list Auth) : Guard * list View * list ref_id :=
  match props with
  | [] => (g, [], [])
  | a :: rest =>
      let '(g1, v, calls) := component g a in
      let '(g2, vs, calls') := renders component g1 rest in
      (g2, v :: vs, (calls ++ calls')%list)
  end.

End React.

(** ** react-router variant of the app ([src/client/src/App.tsx]) *)

Module ReactRouterApp.
Import React.

(** The body of [ProtectedLayout]'s [useEffect]. *)
Definition ProtectedLayout_effect (a : Auth) (cur : option string)
    : option string * list ref_id :=
  match user a with
  | Some u =>
      let cur1 := if ref_is_falsy cur then Some (role u) else cur in
      if ref_differs cur1 (role u)
      then (cur1, match logout a with Some f => [f] | None => [] end)
      else (cur1, [])
  | None => (cur, [])
  end.

(** What [ProtectedLayout] returns. *)
Definition ProtectedLayout_view (a : Auth) : View :=
  if isLoading a then Spinner
  else match user a with
       | None => Navigate (Js.Str "/login")
       | Some _ => Protected
       end.

Definition ProtectedLayout (g : Guard) (a : Auth)
    : Guard * View * list ref_id :=
  let '(g1, calls) := commit ProtectedLayout_effect g a in
  (g1, ProtectedLayout_view a, calls).

Definition PublicRoute (a : Auth) : View :=
  if isLoading a then Spinner
  else match user a with
       | Some _ => RoleBasedRedirect
       | None => Children
       end.

Definition routes : gmap string Js.value :=
  Js.literal
    [ ("super_admin", Js.Str "/admin");
      ("admin", Js.Str "/admin");
      ("builder", Js.Str "/builder-dashboard");
      ("telecaller", Js.Str "/telecaller");
      ("broker", Js.Str "/broker");
      ("ca", Js.Str "/ca");
      ("user", Js.Str "/dashboard") ].

(** [return routes[role] || "/dashboard";] *)
Definition getRoleBasedRoute (role : string) : Js.value :=
  Js.or (Js.get routes role) (Js.Str "/dashboard").

Definition RoleBasedRedirectWrapper (a : Auth) : View :=
  if isLoading a then Spinner
  else Navigate (match user a with
                 | Some u => getRoleBasedRoute (role u)
                 | None => Js.Str "/login"
                 end).

End ReactRouterApp.

(** ** wouter variant of the app ([src/unnamed/part_000]) *)

Module WouterApp.
Import React.

(** The body of [ProtectedRoute]'s [useEffect]. *)
Definition ProtectedRoute_effect (a : Auth) (cur : option string)
    : option string * list ref_id :=
  match user a with
  | Some u =>
      let cur1 := if ref_is_falsy cur then Some (role u) else cur in
      if ref_differs cur1 (role u)
      then (cur1, match logout a with Some f => [f] | None => [] end)
      else (cur1, [])
  | None => (cur, [])
  end.

(** What [ProtectedRoute] returns. *)
Definition ProtectedRoute_view (a : Auth) : View :=
  if isLoading a then Spinner
  else match user a with
       | None => Navigate (Js.Str "/login")
       | Some _ => Protected
       end.

Definition ProtectedRoute (g : Guard) (a : Auth)
    : Guard * View * list ref_id :=
  let '(g1, calls) := commit ProtectedRoute_effect g a in
  (g1, ProtectedRoute_view a, calls).

Definition PublicRoute (a : Auth) : View :=
  if isLoading a then Spinner
  else match user a with
       | Some _ => RoleBasedRedirect
       | None => Children
       end.

Definition routes : gmap string Js.value :=
  Js.literal
    [ ("super_admin", Js.Str "/admin");
      ("admin", Js.Str "/admin");
      ("builder", Js.Str "/builder-dashboard");
      ("telecaller", Js.Str "/telecaller");
      ("broker", Js.Str "/broker");
      ("ca", Js.Str "/ca");
      ("user", Js.Str "/dashboard") ].

(** [return routes[role] || "/dashboard";] *)
Definition getRoleBasedRoute (role : string) : Js.value :=
  Js.or (Js.get routes role) (Js.Str "/dashboard").

(** This variant reads only [user] from [useAuth()]. *)
Definition RoleBasedRedirectWrapper (a : Auth) : View :=
  Navigate (match user a with
            | Some u => getRoleBasedRoute (role u)
            | None => Js.Str "/login"
            end).

End WouterApp.

(** The role to landing path table as the specification documents it:
    the six mapped roles, [user], and the default for everything else. *)
Definition documented_landing_path (role : string) : string :=
  if decide (role = "super_admin") then "/admin"
  else if decide (role = "admin") then "/admin"
  else if decide (role = "builder") then "/builder-dashboard"
  else if decide (role = "telecaller") then "/telecaller"
  else if decide (role = "broker") then "/broker"
  else if decide (role = "ca") then "/ca"
  else "/dashboard".

(** A render that presents a session whose role is [r]. *)
Definition session_with_role (r : string) (a : React.Auth) : Prop :=
  ∃ u, React.user a = Some u ∧ React.role u = r.

(** The role-drift property in the specification's words, for a guard
    [component]: the instance is mounted, a first render records the
    baseline role [b], a later render presents a role [r] other than [b],
    any number of renders with that changed role follow, and over all of
    them [logout] is invoked exactly once. *)
Definition logout_once_per_role_change
    (component : React.Guard → React.Auth
                 → React.Guard * React.View * list React.ref_id) : Prop :=
  ∀ (b r : string) (first changed : React.Auth) (later : list React.Auth),
    session_with_role b first →
    session_with_role r changed →
    r ≠ b →
    Forall (session_with_role r) later →
    length (React.renders component React.mount
              (first :: changed :: later)).2 = 1.

(** ** The upload widget ([src/client/src/components/ui/file-uploader.tsx]) *)

Module FileUploader.

(** A browser [File]; only its identity matters to the widget logic. *)
Record File : Type := mkFile { name : string; size : nat }.

#[global] Instance File_eq_dec : EqDecision File.
Proof. solve_decision. Defined.

(** The four [useState] cells of the component, and around them what the
    component has set in motion: the calls made to the injected
    [onFileUpload], the promises of those calls that have not settled yet
    (each awaited by one run of [handleUpload]), the [setTimeout]
    callbacks scheduled and not yet fired, and the [console.error]
    lines written. *)
Record Widget : Type := mkWidget {
  file : option File;
  isDragging : bool;
  isUploading : bool;
  uploadSuccess : bool;
  uploadCalls : list File;
  pendingUploads : list File;
  timers : nat;
  errorsLogged : nat
}.

Definition initial : Widget :=
  {| file := None; isDragging := false; isUploading := false;
     uploadSuccess := false; uploadCalls := []; pendingUploads := [];
     timers := 0; errorsLogged := 0 |}.

Definition setFile (f : option File) (w : Widget) : Widget :=
  {| file := f; isDragging := isDragging w; isUploading := isUploading w;
     uploadSuccess := uploadSuccess w; uploadCalls := uploadCalls w;
     pendingUploads := pendingUploads w; timers := timers w;
     errorsLogged := errorsLogged w |}.

Definition setIsDragging (b : bool) (w : Widget) : Widget :=
  {| file := file w; isDragging := b; isUploading := isUploading w;
     uploadSuccess := uploadSuccess w; uploadCalls := uploadCalls w;
     pendingUploads := pendingUploads w; timers := timers w;
     errorsLogged := errorsLogged w |}.

Definition setIsUploading (b : bool) (w : Widget) : Widget :=
  {| file := file w; isDragging := isDragging w; isUploading := b;
     uploadSuccess := uploadSuccess w; uploadCalls := uploadCalls w;
     pendingUploads := pendingUploads w; timers := timers w;
     errorsLogged := errorsLogged w |}.

Definition setUploadSuccess (b : bool) (w : Widget) : Widget :=
  {| file := file w; isDragging := isDragging w; isUploading := isUploading w;
     uploadSuccess := b; uploadCalls := uploadCalls w;
     pendingUploads := pendingUploads w; timers := timers w;
     errorsLogged := errorsLogged w |}.

(** [onFileUpload(file)]: the call is recorded and its promise is pending. *)
Definition onFileUpload (f : File) (w : Widget) : Widget :=
  {| file := file w; isDragging := isDragging w; isUploading := isUploading w;
     uploadSuccess := uploadSuccess w;
     uploadCalls := (uploadCalls w ++ [f])%list;
     pendingUploads := (pendingUploads w ++ [f])%list;
     timers := timers w; errorsLogged := errorsLogged w |}.

(** [setTimeout(() => handleClearFile(), 3000)] *)
Definition setTimeout (w : Widget) : Widget :=
  {| file := file w; isDragging := isDragging w; isUploading := isUploading w;
     uploadSuccess := uploadSuccess w; uploadCalls := uploadCalls w;
     pendingUploads := pendingUploads w; timers := S (timers w);
     errorsLogged := errorsLogged w |}.

(** [console.error("Upload failed:", error)] *)
Definition console_error (w : Widget) : Widget :=
  {| file := file w; isDragging := isDragging w; isUploading := isUploading w;
     uploadSuccess := uploadSuccess w; uploadCalls := uploadCalls w;
     pendingUploads := pendingUploads w; timers := timers w;
     errorsLogged := S (errorsLogged w) |}.

Definition handleDragEnter (w : Widget) : Widget := setIsDragging true w.

Definition handleDragLeave (w : Widget) : Widget := setIsDragging false w.

Definition handleDrop (files : list File) (w : Widget) : Widget :=
  let w1 := setIsDragging false w in
  match files with
  | f :: _ => setUploadSuccess false (setFile (Some f) w1)
  | [] => w1
  end.

Definition handleFileChange (files : list File) (w : Widget) : Widget :=
  match files with
  | f :: _ => setUploadSuccess false (setFile (Some f) w)
  | [] => w
  end.

Definition handleClearFile (w : Widget) : Widget :=
  setUploadSuccess false (setFile None w).

(** [handleUpload] up to its [await]. *)
Definition handleUpload (w : Widget) : Widget :=
  match file w with
  | None => w
  | Some f => onFileUpload f (setUploadSuccess false (setIsUploading true w))
  end.

(** [handleUpload] from its [await] on, once the promise has settled:
    the rest of the [try] when it resolved, the [catch] when it rejected,
    and the [finally] block in both cases. *)
Definition handleUpload_resume (ok : bool) (w : Widget) : Widget :=
  let w1 := if ok then setUploadSuccess true w else console_error w in
  setTimeout (setIsUploading false w1).

(** [disabled={!file || isUploading || uploadSuccess}] *)
Definition disabled (w : Widget) : bool :=
  negb (bool_decide (is_Some (file w))) || isUploading w || uploadSuccess w.

(** What can happen to a mounted widget: the user's gestures, the
    settling of the [i]-th pending upload, and a due timer firing. *)
Inductive Event : Type :=
| DragEnter
| DragOver
| DragLeave
| Drop (files : list File)
| FileChange (files : list File)
| ClickUpload
| ClickRemove
| UploadSettled (i : nat) (ok : bool)
| TimerFired.

Definition removePending (i : nat) (w : Widget) : Widget :=
  {| file := file w; isDragging := isDragging w; isUploading := isUploading w;
     uploadSuccess := uploadSuccess w; uploadCalls := uploadCalls w;
     pendingUploads := delete i (pendingUploads w);
     timers := timers w; errorsLogged := errorsLogged w |}.

Definition clearTimer (w : Widget) : Widget :=
  {| file := file w; isDragging := isDragging w; isUploading := isUploading w;
     uploadSuccess := uploadSuccess w; uploadCalls := uploadCalls w;
     pendingUploads := pendingUploads w; timers := pred (timers w);
     errorsLogged := errorsLogged w |}.

(** A click on a disabled button reaches no handler; a settlement or a
    timer that is not outstanding does not happen. The drop zone and the
    Remove button stay in the document while their exit animation plays,
    so their handlers are not gated on [file]. *)
Definition step (w : Widget) (e : Event) : Widget :=
  match e with
  | DragEnter | DragOver => handleDragEnter w
  | DragLeave => handleDragLeave w
  | Drop files => handleDrop files w
  | FileChange files => handleFileChange files w
  | ClickUpload => if disabled w then w else handleUpload w
  | ClickRemove => handleClearFile w
  | UploadSettled i ok =>
      match pendingUploads w !! i with
      | Some _ => handleUpload_resume ok (removePending i w)
      | None => w
      end
  | TimerFired =>
      match timers w with
      | S _ => handleClearFile (clearTimer w)
      | O => w
      end
  end.

Definition run (w : Widget) (es : list Event) : Widget := foldl step w es.

(** What every reachable widget state satisfies: an upload is pending
    exactly while [isUploading] is set, there is never more than one, and
    the success flag is down while it lasts. *)
Definition upload_inv (w : Widget) : Prop :=
  length (pendingUploads w) = (if isUploading w then 1 else 0)
  ∧ (isUploading w = true → uploadSuccess w = false).

End FileUploader.

(** ** The route tables *)

Module Routing.

(** The page components the two apps import and mount. *)
Inductive Page : Type :=
| Dashboard | FileUploadPage | LeadManagementPage | UserManagement
| AuditLogs | Tracking | Analytics | Settings | GlassLogin | Register
| NotFound | CRMIntegrationStatus | DocumentManager | BuilderDashboard
| SimplifiedBuilderDashboard | TelecallerDashboard | AdminDashboard
| BrokerDashboard | CADashboard | UserDashboard | DocumentManagement
| TelecallerManagement | BankManagement | NotificationCenter
| AssignmentManagement.

#[global] Instance Page_eq_dec : EqDecision Page.
Proof. solve_decision. Defined.

(** What a route mounts: a page inside [PublicRoute], a page inside the
    route guard, the root redirect wrapper, or a page on its own. *)
Inductive Element : Type :=
| PublicPage (p : Page)
| ProtectedPage (p : Page)
| RootRedirect
| Bare (p : Page).

#[global] Instance Element_eq_dec : EqDecision Element.
Proof. solve_decision. Defined.

(** A route's [path]: a path string, or the catch-all (react-router's
    [path="*"], wouter's route without a [path]). *)
Inductive Pattern : Type :=
| Path (p : string)
| CatchAll.

#[global] Instance Pattern_eq_dec : EqDecision Pattern.
Proof. solve_decision. Defined.

(** The element a table registers under the path [p], first entry first. *)
Fixpoint registered (table : list (Pattern * Element)) (p : string)
    : option Element :=
  match table with
  | [] => None
  | (pat, el) :: rest =>
      if decide (pat = Path p) then Some el else registered rest p
  end.

(** Whether a route's pattern accepts a location, given the router's path
    matcher; the catch-all accepts every location. *)
Definition accepts (matcher : string → string → bool)
    (pat : Pattern) (location : string) : bool :=
  match pat with
  | Path p => matcher p location
  | CatchAll => true
  end.

(** wouter's [<Switch>]: the children are tried in order and the first
    one whose pattern accepts the location is the only one rendered. *)
Fixpoint Switch (matcher : string → string → bool)
    (children : list (Pattern * Element)) (location : string)
    : option Element :=
  match children with
  | [] => None
  | (pat, el) :: rest =>
      if accepts matcher pat location then Some el
      else Switch matcher rest location
  end.

End Routing.

(** The routes of [AppRouter] in [src/client/src/App.tsx]; the children of
    the [ProtectedLayout] layout route are the protected pages. *)
Module ReactRouterRoutes.
Import Routing.

Definition AppRouter : list (Pattern * Element) :=
  [ (Path "/login", PublicPage GlassLogin);
    (Path "/register", PublicPage Register);
    (Path "/dashboard", ProtectedPage Dashboard);
    (Path "/upload", ProtectedPage FileUploadPage);
    (Path "/leads", ProtectedPage LeadManagementPage);
    (Path "/users", ProtectedPage UserManagement);
    (Path "/tracking", ProtectedPage Tracking);
    (Path "/timeline", ProtectedPage Tracking);
    (Path "/analytics", ProtectedPage Analytics);
    (Path "/documents", ProtectedPage DocumentManagement);
    (Path "/builder", ProtectedPage SimplifiedBuilderDashboard);
    (Path "/builder-dashboard", ProtectedPage BuilderDashboard);
    (Path "/telecaller", ProtectedPage TelecallerDashboard);
    (Path "/admin", ProtectedPage AdminDashboard);
    (Path "/broker", ProtectedPage BrokerDashboard);
    (Path "/ca", ProtectedPage CADashboard);
    (Path "/user", ProtectedPage UserDashboard);
    (Path "/telecaller-management", ProtectedPage TelecallerManagement);
    (Path "/banks", ProtectedPage BankManagement);
    (Path "/notifications", ProtectedPage NotificationCenter);
    (Path "/assignments", ProtectedPage AssignmentManagement);
    (Path "/audit-logs", ProtectedPage AuditLogs);
    (Path "/crm-integration", ProtectedPage CRMIntegrationStatus);
    (Path "/settings", ProtectedPage Settings);
    (Path "/", RootRedirect);
    (CatchAll, Bare NotFound) ].

End ReactRouterRoutes.

(** The children of [<Switch>] in [Router] of [src/unnamed/part_000]. *)
Module WouterRoutes.
Import Routing.

Definition Router : list (Pattern * Element) :=
  [ (Path "/login", PublicPage GlassLogin);
    (Path "/register", PublicPage Register);
    (Path "/dashboard", ProtectedPage Dashboard);
    (Path "/upload", ProtectedPage FileUploadPage);
    (Path "/leads", ProtectedPage LeadManagementPage);
    (Path "/tracking", ProtectedPage Tracking);
    (Path "/timeline", ProtectedPage Tracking);
    (Path "/analytics", ProtectedPage Analytics);
    (Path "/documents", ProtectedPage DocumentManager);
    (Path "/builder", ProtectedPage SimplifiedBuilderDashboard);
    (Path "/builder-dashboard", ProtectedPage BuilderDashboard);
    (Path "/telecaller", ProtectedPage TelecallerDashboard);
    (Path "/admin", ProtectedPage AdminDashboard);
    (Path "/broker", ProtectedPage BrokerDashboard);
    (Path "/ca", ProtectedPage CADashboard);
    (Path "/user", ProtectedPage UserDashboard);
    (Path "/documents", ProtectedPage DocumentManagement);
    (Path "/telecaller-management", ProtectedPage TelecallerManagement);
    (Path "/banks", ProtectedPage BankManagement);
    (Path "/notifications", ProtectedPage NotificationCenter);
    (Path "/assignments", ProtectedPage AssignmentManagement);
    (Path "/audit-logs", ProtectedPage AuditLogs);
    (Path "/crm-integration", ProtectedPage CRMIntegrationStatus);
    (Path "/settings", ProtectedPage Settings);
    (Path "/", RootRedirect);
    (CatchAll, Bare NotFound) ].

(** The location [Router] renders for: what [<Switch>] picks. *)
Definition Router_renders (matcher : string → string → bool)
    (location : string) : option Element :=
  Switch matcher Router location.

End WouterRoutes.

(** ** What the upload widget shows *)

Module FileUploaderView.
Import FileUploader.

(** The three captions of the submit button. *)
Inductive ButtonLabel : Type :=
| Uploading
| UploadSuccessful
| UploadFile.

(** [isUploading ? ... : uploadSuccess ? ... : ...] *)
Definition buttonLabel (w : Widget) : ButtonLabel :=
  if isUploading w then Uploading
  else if uploadSuccess w then UploadSuccessful
  else UploadFile.

(** The body of the card: the preview of the selected file (with the
    Remove button) or the drop zone, highlighted while dragging. *)
Inductive Panel : Type :=
| Preview (f : File)
| DropZone (highlighted : bool).

(** [file ? <preview/> : <label/>] *)
Definition panel (w : Widget) : Panel :=
  match file w with
  | Some f => Preview f
  | None => DropZone (isDragging w)
  end.

(** Is this event the settling of an upload? *)
Definition is_settlement (e : Event) : bool :=
  match e with
  | UploadSettled _ _ => true
  | _ => false
  end.

(** The file an event selects: the first of a dropped or picked list. *)
Definition selects (e : Event) : option File :=
  match e with
  | Drop files | FileChange files => head files
  | _ => None
  end.

(** A submit: a click on the submit button that finds it enabled. *)
Definition is_submit (w : Widget) (e : Event) : bool :=
  match e with
  | ClickUpload => negb (disabled w)
  | _ => false
  end.

(** The files submitted over a run of events from [w], in order: for each
    submit, the file selected at that moment. *)
Fixpoint submits (w : Widget) (es : list Event) : list File :=
  match es with
  | [] => []
  | e :: rest =>
      ((if is_submit w e then option_list (file w) else [])
       ++ submits (step w e) rest)%list
  end.

(** How many submits a run of events from [w] holds. *)
Fixpoint submit_count (w : Widget) (es : list Event) : nat :=
  match es with
  | [] => 0
  | e :: rest =>
      ((if is_submit w e then 1 else 0) + submit_count (step w e) rest)%nat
  end.

End FileUploaderView.

(** * Properties *)

(** ** Role Router *)

Section RoleRouter.

Import Js.

(** The own properties of [routes], read back key by key. *)
Lemma routes_lookup (role : string) :
  ReactRouterApp.routes !! role =
  if decide (role = "super_admin") then Some (Str "/admin")
  else if decide (role = "admin") then Some (Str "/admin")
  else if decide (role = "builder") then Some (Str "/builder-dashboard")
  else if decide (role = "telecaller") then Some (Str "/telecaller")
  else if decide (role = "broker") then Some (Str "/broker")
  else if decide (role = "ca") then Some (Str "/ca")
  else if decide (role = "user") then Some (Str "/dashboard")
  else None.
Proof.
  unfold ReactRouterApp.routes, literal. simpl.
  repeat (case_decide; [subst role; vm_compute; reflexivity |]).
  repeat (rewrite lookup_insert_ne by congruence).
  apply lookup_empty.
Qed.

Lemma wouter_routes_eq : WouterApp.routes = ReactRouterApp.routes.
Proof. reflexivity. Qed.

(** Away from the names [Object.prototype] defines, the Role Router
    returns exactly the documented landing path: the mapped path for the
    seven mapped roles and ["/dashboard"] for everything else, the empty
    string included. *)
Lemma getRoleBasedRoute_documented (role : string) :
  ObjectPrototype !! role = None →
  ReactRouterApp.getRoleBasedRoute role = Str (documented_landing_path role).
Proof.
  intros Hproto.
  unfold ReactRouterApp.getRoleBasedRoute, Js.get, documented_landing_path.
  rewrite routes_lookup.
  repeat (case_decide; [reflexivity |]).
  rewrite Hproto. reflexivity.
Qed.

Lemma getRoleBasedRoute_empty :
  ReactRouterApp.getRoleBasedRoute EmptyString = Str "/dashboard".
Proof.
  apply (getRoleBasedRoute_documented EmptyString). vm_compute. reflexivity.
Qed.

Lemma getRoleBasedRoute_mapped :
  ReactRouterApp.getRoleBasedRoute "super_admin" = Str "/admin"
  ∧ ReactRouterApp.getRoleBasedRoute "admin" = Str "/admin"
  ∧ ReactRouterApp.getRoleBasedRoute "builder" = Str "/builder-dashboard"
  ∧ ReactRouterApp.getRoleBasedRoute "telecaller" = Str "/telecaller"
  ∧ ReactRouterApp.getRoleBasedRoute "broker" = Str "/broker"
  ∧ ReactRouterApp.getRoleBasedRoute "ca" = Str "/ca"
  ∧ ReactRouterApp.getRoleBasedRoute "user" = Str "/dashboard".
Proof. repeat split; vm_compute; reflexivity. Qed.

(** C1. The Role Router is meant to send every unmapped role string to
    ["/dashboard"]. On the role ["constructor"] the lookup [routes[role]]
    finds the property inherited from [Object.prototype], a truthy
    function object, and both variants return it instead of the
    documented default path. *)
Theorem getRoleBasedRoute_inherited_property :
  ReactRouterApp.getRoleBasedRoute "constructor" = Function "Object"
  ∧ WouterApp.getRoleBasedRoute "constructor" = Function "Object"
  ∧ documented_landing_path "constructor" = "/dashboard"
  ∧ ReactRouterApp.getRoleBasedRoute "constructor"
    ≠ Str (documented_landing_path "constructor").
Proof.
  repeat split; try (vm_compute; reflexivity).
  vm_compute. discriminate.
Qed.

(** C9. The react-router variant and the wouter variant of
    [getRoleBasedRoute] return the same value on every role string. *)
Theorem getRoleBasedRoute_variants_agree (role : string) :
  ReactRouterApp.getRoleBasedRoute role = WouterApp.getRoleBasedRoute role.
Proof.
  unfold ReactRouterApp.getRoleBasedRoute, WouterApp.getRoleBasedRoute.
  rewrite wouter_routes_eq. reflexivity.
Qed.

End RoleRouter.

(** ** What the guards and the root redirect return *)

Section Views.

Import React.

Lemma ProtectedRoute_eq : WouterApp.ProtectedRoute = ReactRouterApp.ProtectedLayout.
Proof. reflexivity. Qed.

Lemma ProtectedLayout_returns (g : Guard) (a : Auth) :
  (ReactRouterApp.ProtectedLayout g a).1.2 = ReactRouterApp.ProtectedLayout_view a.
Proof.
  unfold ReactRouterApp.ProtectedLayout.
  destruct (commit ReactRouterApp.ProtectedLayout_effect g a). reflexivity.
Qed.

Lemma ProtectedRoute_returns (g : Guard) (a : Auth) :
  (WouterApp.ProtectedRoute g a).1.2 = WouterApp.ProtectedRoute_view a.
Proof.
  unfold WouterApp.ProtectedRoute.
  destruct (commit WouterApp.ProtectedRoute_effect g a). reflexivity.
Qed.

(** In the react-router variant the root redirect shows the placeholder
    while loading and redirects only afterwards: to ["/login"] without a
    session, to the Role Router's answer with one. *)
Lemma RoleBasedRedirectWrapper_waits (a : Auth) :
  (isLoading a = true →
     ReactRouterApp.RoleBasedRedirectWrapper a = Spinner)
  ∧ (isLoading a = false → user a = None →
     ReactRouterApp.RoleBasedRedirectWrapper a = Navigate (Js.Str "/login"))
  ∧ (∀ u, isLoading a = false → user a = Some u →
     ReactRouterApp.RoleBasedRedirectWrapper a
     = Navigate (ReactRouterApp.getRoleBasedRoute (role u))).
Proof.
  unfold ReactRouterApp.RoleBasedRedirectWrapper.
  repeat split; intros; simplify_eq; repeat match goal with
    | H : _ = _ |- _ => rewrite H end; reflexivity.
Qed.

(** C5. The root redirect is meant to wait for the loading flag before
    it redirects. The wouter variant never reads the flag: while the
    session is still loading (and therefore absent) it already redirects
    to ["/login"], where the react-router variant shows the placeholder. *)
Theorem wouter_RoleBasedRedirectWrapper_ignores_loading :
  let a := {| user := None; isLoading := true; logout := None |} in
  WouterApp.RoleBasedRedirectWrapper a = Navigate (Js.Str "/login")
  ∧ redirects (WouterApp.RoleBasedRedirectWrapper a) = true
  ∧ ReactRouterApp.RoleBasedRedirectWrapper a = Spinner.
Proof. repeat split. Qed.

(** C6. While [isLoading] is true, whatever the session, the Route Guard
    and the Public Route Gate of both variants return the placeholder,
    which is not a redirect. *)
Theorem loading_never_redirects (g : Guard) (a : Auth) :
  isLoading a = true →
  (ReactRouterApp.ProtectedLayout g a).1.2 = Spinner
  ∧ ReactRouterApp.PublicRoute a = Spinner
  ∧ (WouterApp.ProtectedRoute g a).1.2 = Spinner
  ∧ WouterApp.PublicRoute a = Spinner
  ∧ redirects Spinner = false.
Proof.
  intros Hload.
  rewrite ProtectedLayout_returns, ProtectedRoute_returns.
  unfold ReactRouterApp.ProtectedLayout_view, WouterApp.ProtectedRoute_view,
    ReactRouterApp.PublicRoute, WouterApp.PublicRoute.
  rewrite Hload. repeat split.
Qed.

Lemma loading_never_redirects_witness :
  let a := {| user := Some (mkUser 1 "broker"); isLoading := true;
              logout := Some 7 |} in
  (ReactRouterApp.ProtectedLayout mount a).1.2 = Spinner
  ∧ ReactRouterApp.PublicRoute a = Spinner
  ∧ (WouterApp.ProtectedRoute mount a).1.2 = Spinner
  ∧ WouterApp.PublicRoute a = Spinner
  ∧ redirects Spinner = false.
Proof. apply loading_never_redirects. reflexivity. Defined.

(** C7. With no session and [isLoading] false the Route Guard of both
    variants returns the redirect to ["/login"], not the protected
    layout with the child view. *)
Theorem guard_without_session_redirects_to_login (g : Guard) (a : Auth) :
  user a = None → isLoading a = false →
  (ReactRouterApp.ProtectedLayout g a).1.2 = Navigate (Js.Str "/login")
  ∧ (WouterApp.ProtectedRoute g a).1.2 = Navigate (Js.Str "/login")
  ∧ Navigate (Js.Str "/login") ≠ Protected.
Proof.
  intros Huser Hload.
  rewrite ProtectedLayout_returns, ProtectedRoute_returns.
  unfold ReactRouterApp.ProtectedLayout_view, WouterApp.ProtectedRoute_view.
  rewrite Huser, Hload. repeat split. discriminate.
Qed.

Lemma guard_without_session_redirects_to_login_witness :
  let a := {| user := None; isLoading := false; logout := Some 7 |} in
  (ReactRouterApp.ProtectedLayout mount a).1.2 = Navigate (Js.Str "/login")
  ∧ (WouterApp.ProtectedRoute mount a).1.2 = Navigate (Js.Str "/login")
  ∧ Navigate (Js.Str "/login") ≠ Protected.
Proof.
  apply guard_without_session_redirects_to_login; reflexivity.
Defined.

End Views.

(** ** Role drift: the baseline cell and the logout calls *)

Section RoleDrift.

Import React ReactRouterApp.

(** The memory of the instance after a render, and the calls it made. *)
Lemma ProtectedLayout_commit (g : Guard) (a : Auth) :
  (ProtectedLayout g a).1.1 = (commit ProtectedLayout_effect g a).1
  ∧ (ProtectedLayout g a).2 = (commit ProtectedLayout_effect g a).2.
Proof.
  unfold ProtectedLayout.
  destruct (commit ProtectedLayout_effect g a). split; reflexivity.
Qed.

(** After any render the recorded dependency array is the current one. *)
Lemma lastDeps_after_render (g : Guard) (a : Auth) :
  lastDeps (ProtectedLayout g a).1.1 = Some (deps a).
Proof.
  destruct (ProtectedLayout_commit g a) as [-> _].
  unfold commit, effect_due.
  destruct (lastDeps g) as [d|] eqn:Hd.
  - case_bool_decide as Heq; simpl.
    + rewrite Hd, Heq. reflexivity.
    + destruct (ProtectedLayout_effect a (initialRoleRef g)).
      reflexivity.
  - destruct (ProtectedLayout_effect a (initialRoleRef g)).
    reflexivity.
Qed.

(** A render whose dependency array is the recorded one runs no effect:
    the memory is untouched and nothing is invoked. *)
Lemma render_same_deps (g : Guard) (a : Auth) :
  lastDeps g = Some (deps a) →
  (ProtectedLayout g a).1.1 = g ∧ (ProtectedLayout g a).2 = [].
Proof.
  intros Hd.
  destruct (ProtectedLayout_commit g a) as [-> ->].
  unfold commit, effect_due. rewrite Hd.
  rewrite bool_decide_eq_true_2 by reflexivity. split; reflexivity.
Qed.

(** The effect body leaves a non-empty baseline alone. *)
Lemma effect_keeps_baseline (a : Auth) (b : string) :
  b ≠ EmptyString →
  (ProtectedLayout_effect a (Some b)).1 = Some b.
Proof.
  intros Hb. unfold ProtectedLayout_effect.
  destruct (user a) as [u|]; [|reflexivity].
  simpl. apply String.eqb_neq in Hb. rewrite Hb.
  destruct (ref_differs (Some b) (role u)); reflexivity.
Qed.

(** A non-empty baseline survives every render of the mounted instance. *)
Lemma render_keeps_baseline (g : Guard) (a : Auth) (b : string) :
  initialRoleRef g = Some b → b ≠ EmptyString →
  initialRoleRef (ProtectedLayout g a).1.1 = Some b.
Proof.
  intros Hg Hb.
  destruct (ProtectedLayout_commit g a) as [-> _].
  unfold commit. destruct (effect_due g a); [|exact Hg].
  rewrite Hg.
  pose proof (effect_keeps_baseline a b Hb) as Hk.
  destruct (ProtectedLayout_effect a (Some b)). exact Hk.
Qed.

Lemma renders_cons (g : Guard) (a : Auth) (rest : list Auth) :
  (renders ProtectedLayout g (a :: rest)).1.1
    = (renders ProtectedLayout (ProtectedLayout g a).1.1 rest).1.1
  ∧ (renders ProtectedLayout g (a :: rest)).2
    = ((ProtectedLayout g a).2
       ++ (renders ProtectedLayout (ProtectedLayout g a).1.1 rest).2)%list.
Proof.
  simpl. destruct (ProtectedLayout g a) as [[g1 v] calls]. simpl.
  destruct (renders ProtectedLayout g1 rest) as [[g2 vs] calls']. split; reflexivity.
Qed.

Lemma renders_keep_baseline (props : list Auth) (g : Guard) (b : string) :
  initialRoleRef g = Some b → b ≠ EmptyString →
  initialRoleRef (renders ProtectedLayout g props).1.1 = Some b.
Proof.
  revert g. induction props as [|a rest IH]; intros g Hg Hb; [exact Hg|].
  destruct (renders_cons g a rest) as [-> _].
  apply IH; [|exact Hb]. apply render_keeps_baseline; assumption.
Qed.

(** Re-rendering with the same user object and the same [logout]
    reference, any number of times, invokes nothing. *)
Lemma renders_same_deps
    (later : list Auth) (g : Guard) (d : option ref_id * option ref_id) :
  lastDeps g = Some d →
  Forall (λ a, deps a = d) later →
  (renders ProtectedLayout g later).1.1 = g
  ∧ (renders ProtectedLayout g later).2 = [].
Proof.
  revert g. induction later as [|a rest IH]; intros g Hg Hall.
  - split; reflexivity.
  - apply Forall_cons in Hall as [Ha Hrest].
    destruct (renders_cons g a rest) as [-> ->].
    destruct (render_same_deps g a) as [-> ->]; [congruence|].
    simpl. apply IH; assumption.
Qed.

(** One effect run against a non-empty baseline [b]: [logout] is invoked
    once when the session's role differs from [b] and a [logout] is
    supplied, and not at all otherwise. *)
Lemma render_with_drift (g : Guard) (a : Auth) (b : string) (u : User) :
  initialRoleRef g = Some b → b ≠ EmptyString →
  user a = Some u →
  lastDeps g ≠ Some (deps a) →
  (ProtectedLayout g a).2 =
    if decide (role u = b) then []
    else match logout a with Some f => [f] | None => [] end.
Proof.
  intros Hg Hb Hu Hd.
  destruct (ProtectedLayout_commit g a) as [_ ->].
  unfold commit, effect_due.
  destruct (lastDeps g) as [d|] eqn:Hl.
  - rewrite bool_decide_eq_false_2 by congruence. simpl.
    unfold ProtectedLayout_effect. rewrite Hu, Hg. simpl.
    apply String.eqb_neq in Hb. rewrite Hb. simpl.
    case_decide as Hr.
    + subst b. rewrite String.eqb_refl. reflexivity.
    + assert (String.eqb b (role u) = false) as ->
        by (apply String.eqb_neq; congruence).
      reflexivity.
  - unfold ProtectedLayout_effect. rewrite Hu, Hg. simpl.
    apply String.eqb_neq in Hb. rewrite Hb. simpl.
    case_decide as Hr.
    + subst b. rewrite String.eqb_refl. reflexivity.
    + assert (String.eqb b (role u) = false) as ->
        by (apply String.eqb_neq; congruence).
      reflexivity.
Qed.

(** C3. As worded, the claim does not hold: a second user object carrying
    the same changed role makes the effect run, and [logout] be invoked,
    a second time; without a [logout] operation nothing is invoked; and
    after an empty baseline nothing is invoked either. *)
Lemma logout_not_once_per_role_change :
  (renders ProtectedLayout mount
     [ mkAuth (Some (mkUser 1 "admin")) false (Some 7);
       mkAuth (Some (mkUser 2 "user")) false (Some 7);
       mkAuth (Some (mkUser 3 "user")) false (Some 7) ]).2 = [7; 7]
  ∧ (renders ProtectedLayout mount
       [ mkAuth (Some (mkUser 1 "admin")) false None;
         mkAuth (Some (mkUser 2 "user")) false None ]).2 = []
  ∧ (renders ProtectedLayout mount
       [ mkAuth (Some (mkUser 1 EmptyString)) false (Some 7);
         mkAuth (Some (mkUser 2 "user")) false (Some 7) ]).2 = []
  ∧ ¬ logout_once_per_role_change ProtectedLayout.
Proof.
  repeat split; try (vm_compute; reflexivity).
  intros Hclaim.
  specialize (Hclaim "admin" "user"
    (mkAuth (Some (mkUser 1 "admin")) false (Some 7))
    (mkAuth (Some (mkUser 2 "user")) false (Some 7))
    [mkAuth (Some (mkUser 3 "user")) false (Some 7)]).
  assert (∀ n r b l, session_with_role r (mkAuth (Some (mkUser n r)) b l))
    as Hsession by (intros; eexists; split; reflexivity).
  specialize (Hclaim (Hsession _ _ _ _) (Hsession _ _ _ _)).
  assert ("user" ≠ "admin") as Hne by discriminate.
  specialize (Hclaim Hne).
  assert (Forall (session_with_role "user")
            [mkAuth (Some (mkUser 3 "user")) false (Some 7)]) as Hlater
    by (constructor; [apply Hsession | constructor]).
  specialize (Hclaim Hlater).
  vm_compute in Hclaim. discriminate Hclaim.
Qed.

(** C3, amended. Take a guard instance, of either variant, that has stayed
    mounted through any history of renders and holds a non-empty baseline
    role. When a render then brings a new user object (or [logout]
    reference) whose role differs from the baseline, and a [logout]
    operation is supplied, [logout] is invoked exactly once, at that
    render, however many renders with that same user object and [logout]
    reference follow. *)
Theorem logout_once_per_changed_session
    (history : list Auth) (changed : Auth) (later : list Auth)
    (b : string) (u : User) (f : ref_id) :
  initialRoleRef (renders ProtectedLayout mount history).1.1 = Some b →
  b ≠ EmptyString →
  user changed = Some u →
  role u ≠ b →
  logout changed = Some f →
  lastDeps (renders ProtectedLayout mount history).1.1 ≠ Some (deps changed) →
  Forall (λ a, deps a = deps changed) later →
  (renders ProtectedLayout (renders ProtectedLayout mount history).1.1
     (changed :: later)).2 = [f]
  ∧ (renders WouterApp.ProtectedRoute
       (renders WouterApp.ProtectedRoute mount history).1.1
       (changed :: later)).2 = [f].
Proof.
  intros Hg Hb Hu Hr Hf Hd Hall.
  rewrite ProtectedRoute_eq.
  set (g := (renders ProtectedLayout mount history).1.1) in *.
  assert ((renders ProtectedLayout g (changed :: later)).2 = [f]) as Hcalls;
    [|split; exact Hcalls].
  destruct (renders_cons g changed later) as [_ ->].
  rewrite (render_with_drift g changed b u Hg Hb Hu Hd).
  rewrite decide_False by exact Hr. rewrite Hf.
  destruct (renders_same_deps later (ProtectedLayout g changed).1.1 (deps changed))
    as [_ ->]; [apply lastDeps_after_render | exact Hall | reflexivity].
Qed.

Lemma logout_once_per_changed_session_witness :
  (renders ProtectedLayout
     (renders ProtectedLayout mount
        [mkAuth (Some (mkUser 1 "admin")) false (Some 7)]).1.1
     [ mkAuth (Some (mkUser 2 "user")) false (Some 7);
       mkAuth (Some (mkUser 2 "user")) true (Some 7);
       mkAuth (Some (mkUser 2 "user")) false (Some 7) ]).2 = [7]
  ∧ (renders WouterApp.ProtectedRoute
       (renders WouterApp.ProtectedRoute mount
          [mkAuth (Some (mkUser 1 "admin")) false (Some 7)]).1.1
       [ mkAuth (Some (mkUser 2 "user")) false (Some 7);
         mkAuth (Some (mkUser 2 "user")) true (Some 7);
         mkAuth (Some (mkUser 2 "user")) false (Some 7) ]).2 = [7].
Proof.
  apply (logout_once_per_changed_session
           [mkAuth (Some (mkUser 1 "admin")) false (Some 7)]
           (mkAuth (Some (mkUser 2 "user")) false (Some 7))
           [ mkAuth (Some (mkUser 2 "user")) true (Some 7);
             mkAuth (Some (mkUser 2 "user")) false (Some 7) ]
           "admin" (mkUser 2 "user") 7).
  - reflexivity.
  - discriminate.
  - reflexivity.
  - discriminate.
  - reflexivity.
  - vm_compute. discriminate.
  - repeat constructor.
Defined.

(** C4. The baseline is meant to be written once per mounted instance.
    The guard tests the cell with [!initialRoleRef.current], which is also
    true of a recorded empty string: an empty baseline recorded on the first
    render is replaced by the role of the next user object, in both
    variants, and the drift goes unnoticed. *)
Theorem empty_baseline_is_overwritten :
  let first := mkAuth (Some (mkUser 1 EmptyString)) false (Some 7) in
  let second := mkAuth (Some (mkUser 2 "admin")) false (Some 7) in
  initialRoleRef (ProtectedLayout mount first).1.1 = Some EmptyString
  ∧ initialRoleRef
      (ProtectedLayout (ProtectedLayout mount first).1.1 second).1.1
    = Some "admin"
  ∧ initialRoleRef
      (WouterApp.ProtectedRoute
         (WouterApp.ProtectedRoute mount first).1.1 second).1.1 = Some "admin"
  ∧ (renders ProtectedLayout mount [first; second]).2 = [].
Proof. repeat split. Qed.

End RoleDrift.

(** ** The upload widget *)

Section UploadWidget.

Import FileUploader.

Lemma upload_inv_initial : upload_inv initial.
Proof. split; [reflexivity | discriminate]. Qed.

Lemma disabled_false (w : Widget) :
  disabled w = false →
  (∃ f, file w = Some f) ∧ isUploading w = false ∧ uploadSuccess w = false.
Proof.
  unfold disabled. intros H.
  apply orb_false_iff in H as [H Hs]. apply orb_false_iff in H as [Hf Hu].
  apply negb_false_iff, bool_decide_eq_true in Hf. destruct Hf as [f Hf].
  eauto.
Qed.

Lemma upload_inv_step (w : Widget) (e : Event) :
  upload_inv w → upload_inv (step w e).
Proof.
  intros [Hlen Hsucc].
  destruct e as [ | | |files|files| | |i ok| ]; simpl.
  - split; assumption.
  - split; assumption.
  - split; assumption.
  - destruct files; split; simpl; auto.
  - destruct files; split; simpl; auto.
  - destruct (disabled w) eqn:Hd; [split; assumption|].
    apply disabled_false in Hd as ([f Hf] & Hu & _).
    unfold handleUpload. rewrite Hf. split; simpl; [|reflexivity].
    rewrite Hu in Hlen. rewrite length_app, Hlen. reflexivity.
  - split; simpl; auto.
  - destruct (pendingUploads w !! i) as [f|] eqn:Hi; [|split; assumption].
    assert (length (delete i (pendingUploads w)) = 0) as Hdel.
    { rewrite length_delete by eauto.
      destruct (isUploading w); rewrite Hlen; [reflexivity|].
      apply lookup_lt_Some in Hi. lia. }
    split; [|destruct ok; simpl; discriminate].
    destruct ok; simpl; exact Hdel.
  - destruct (timers w); split; simpl; auto.
Qed.

Lemma upload_inv_run (es : list Event) (w : Widget) :
  upload_inv w → upload_inv (run w es).
Proof.
  revert w. induction es as [|e es IH]; intros w Hw; [exact Hw|].
  simpl. apply IH, upload_inv_step, Hw.
Qed.

(** A rejected upload hands the widget back as it was selected: the file
    is still there, both flags are down and the button is enabled again;
    the [finally] block has also scheduled the clearing timer. *)
Lemma rejected_upload_returns_to_selected (es : list Event) (i : nat) (f : File) :
  is_Some (pendingUploads (run initial es) !! i) →
  file (run initial es) = Some f →
  let w := step (run initial es) (UploadSettled i false) in
  file w = Some f ∧ isUploading w = false ∧ uploadSuccess w = false
  ∧ disabled w = false ∧ pendingUploads w = []
  ∧ timers w = S (timers (run initial es)).
Proof.
  intros [f0 Hi] Hf.
  destruct (upload_inv_run es initial upload_inv_initial) as [Hlen Hsucc].
  pose proof (upload_inv_step _ (UploadSettled i false)
                (upload_inv_run es initial upload_inv_initial)) as [Hlen' _].
  revert Hlen'. simpl. rewrite Hi. simpl. intros Hlen'.
  assert (isUploading (run initial es) = true) as Hu.
  { destruct (isUploading (run initial es)); [reflexivity|].
    apply lookup_lt_Some in Hi. lia. }
  unfold disabled. simpl. rewrite Hf, (Hsucc Hu).
  repeat split; try reflexivity.
  apply nil_length_inv, Hlen'.
Qed.

(** When the timer scheduled by a settled upload fires, the selection is
    cleared, whichever way the upload ended. *)
Lemma timer_clears_file (w : Widget) :
  timers w ≠ 0 → file (step w TimerFired) = None.
Proof. simpl. destruct (timers w); [congruence | reflexivity]. Qed.

(** C2. After a rejected upload the selected file is meant to stay until
    the user acts. The [finally] block schedules the clearing timer on
    rejection too: select a file, submit, let the upload reject. The widget
    is back in the selected state with the button enabled, and then the
    timer fires, with no user action, and the file is gone. *)
Theorem rejected_upload_file_cleared_by_timer :
  let f := mkFile "deed.pdf" 2048 in
  let w := run initial [FileChange [f]; ClickUpload; UploadSettled 0 false] in
  file w = Some f
  ∧ isUploading w = false
  ∧ uploadSuccess w = false
  ∧ disabled w = false
  ∧ errorsLogged w = 1
  ∧ timers w = 1
  ∧ file (step w TimerFired) = None
  ∧ disabled (step w TimerFired) = true.
Proof. repeat split. Qed.

(** Only a submit calls the injected upload operation, and it calls it
    once, on the selected file; every other event leaves the calls made
    as they are. *)
Lemma step_uploadCalls (w : Widget) (e : Event) :
  uploadCalls (step w e)
    = (uploadCalls w
       ++ (if FileUploaderView.is_submit w e then option_list (file w)
           else []))%list.
Proof.
  destruct e as [ | | |files|files| | |i ok| ]; simpl;
    try (rewrite app_nil_r; reflexivity).
  - destruct files; simpl; rewrite app_nil_r; reflexivity.
  - destruct files; simpl; rewrite app_nil_r; reflexivity.
  - destruct (disabled w) eqn:Hd; simpl; [rewrite app_nil_r; reflexivity|].
    apply disabled_false in Hd as ([f Hf] & _ & _).
    unfold handleUpload. rewrite Hf. reflexivity.
  - destruct (pendingUploads w !! i); [|rewrite app_nil_r; reflexivity].
    destruct ok; simpl; rewrite app_nil_r; reflexivity.
  - destruct (timers w); simpl; rewrite app_nil_r; reflexivity.
Qed.

(** Over any run of events the calls made are the calls made before
    followed by the files submitted, one call per submit. *)
Lemma run_uploadCalls (es : list Event) (w : Widget) :
  uploadCalls (run w es)
    = (uploadCalls w ++ FileUploaderView.submits w es)%list.
Proof.
  revert w. induction es as [|e es IH]; intros w.
  - simpl. rewrite app_nil_r. reflexivity.
  - change (run w (e :: es)) with (run (step w e) es).
    rewrite IH, step_uploadCalls. simpl. rewrite app_assoc. reflexivity.
Qed.

Lemma submits_length (es : list Event) (w : Widget) :
  length (FileUploaderView.submits w es) = FileUploaderView.submit_count w es.
Proof.
  revert w. induction es as [|e es IH]; intros w; [reflexivity|].
  simpl. rewrite length_app, IH. f_equal.
  destruct (FileUploaderView.is_submit w e) eqn:Hs; [|reflexivity].
  destruct e; simpl in Hs; try discriminate Hs.
  apply negb_true_iff, disabled_false in Hs as ([f Hf] & _ & _).
  rewrite Hf. reflexivity.
Qed.

(** C8. In every state the widget can reach: at most one call of the
    injected upload operation is pending; while one is pending, while the
    success flag is set and while no file is selected the button is
    disabled, and a click on it invokes nothing; a click on the enabled
    button invokes the operation exactly once, on the selected file, and
    that call is then the only one pending. Nothing else invokes the
    operation: no gesture, no settling of an upload (resolved or
    rejected) and no timer adds a call, so the calls made over any run of
    events are exactly the files submitted, one call per submit. *)
Theorem one_upload_per_submit (es : list Event) :
  let w := run initial es in
  (length (pendingUploads w) ≤ 1)%nat
  ∧ (pendingUploads w ≠ [] → disabled w = true)
  ∧ (uploadSuccess w = true → disabled w = true)
  ∧ (file w = None → disabled w = true)
  ∧ (disabled w = true → step w ClickUpload = w)
  ∧ (disabled w = false →
     ∃ f, file w = Some f
          ∧ pendingUploads w = []
          ∧ uploadCalls (step w ClickUpload) = (uploadCalls w ++ [f])%list
          ∧ pendingUploads (step w ClickUpload) = [f])
  ∧ (∀ e, FileUploaderView.is_submit w e = false →
          uploadCalls (step w e) = uploadCalls w)
  ∧ uploadCalls w = FileUploaderView.submits initial es
  ∧ length (uploadCalls w) = FileUploaderView.submit_count initial es.
Proof.
  intros w.
  destruct (upload_inv_run es initial upload_inv_initial) as [Hlen Hsucc].
  fold w in Hlen, Hsucc.
  assert (isUploading w = false → pendingUploads w = []) as Hidle.
  { intros Hu. rewrite Hu in Hlen. apply nil_length_inv, Hlen. }
  split; [destruct (isUploading w); lia|].
  split.
  { intros Hp. unfold disabled. destruct (isUploading w).
    - apply orb_true_iff. left. apply orb_true_r.
    - destruct Hp. apply Hidle. reflexivity. }
  split; [intros Hs; unfold disabled; rewrite Hs; apply orb_true_r|].
  split; [intros Hf; unfold disabled; rewrite Hf; reflexivity|].
  split; [intros Hd; simpl; rewrite Hd; reflexivity|].
  split.
  { intros Hd. simpl. rewrite Hd.
    apply disabled_false in Hd as ([f Hf] & Hu & _).
    exists f. unfold handleUpload. rewrite Hf. simpl.
    rewrite (Hidle Hu). repeat split. }
  split.
  { intros e He. rewrite step_uploadCalls, He. apply app_nil_r. }
  assert (uploadCalls w = FileUploaderView.submits initial es) as Hcalls
    by (unfold w; rewrite run_uploadCalls; reflexivity).
  split; [exact Hcalls|].
  rewrite Hcalls. apply submits_length.
Qed.

Lemma one_upload_per_submit_witness :
  let f := mkFile "deed.pdf" 2048 in
  uploadCalls (run initial [FileChange [f]; ClickUpload; ClickUpload]) = [f]
  ∧ (length (pendingUploads
               (run initial [FileChange [f]; ClickUpload; ClickUpload])) ≤ 1)%nat
  ∧ uploadCalls
      (run initial [FileChange [f]; ClickUpload; ClickUpload;
                    UploadSettled 0 false; TimerFired]) = [f]
  ∧ length (uploadCalls
              (run initial [FileChange [f]; ClickUpload; UploadSettled 0 false;
                            ClickUpload; UploadSettled 0 false;
                            UploadSettled 0 false; TimerFired])) = 2.
Proof.
  intros f.
  pose proof (one_upload_per_submit [FileChange [f]; ClickUpload]) as
    (Hlen & Hpending & _ & _ & Hnoop & _).
  split; [|split; [|split]].
  - change (run initial [FileChange [f]; ClickUpload; ClickUpload])
      with (step (run initial [FileChange [f]; ClickUpload]) ClickUpload).
    rewrite Hnoop; [reflexivity|]. apply Hpending. discriminate.
  - change (run initial [FileChange [f]; ClickUpload; ClickUpload])
      with (step (run initial [FileChange [f]; ClickUpload]) ClickUpload).
    rewrite Hnoop; [exact Hlen|]. apply Hpending. discriminate.
  - pose proof (one_upload_per_submit
                  [FileChange [f]; ClickUpload; ClickUpload;
                   UploadSettled 0 false; TimerFired]) as
      (_ & _ & _ & _ & _ & _ & _ & Hcalls & _).
    exact Hcalls.
  - pose proof (one_upload_per_submit
                  [FileChange [f]; ClickUpload; UploadSettled 0 false;
                   ClickUpload; UploadSettled 0 false;
                   UploadSettled 0 false; TimerFired]) as
      (_ & _ & _ & _ & _ & _ & _ & _ & Hcount).
    exact Hcount.
Defined.

(** C10. [handleUpload] with no file selected changes nothing: the four
    state cells are as they were and the injected upload operation has not
    been called. *)
Theorem handleUpload_without_file_is_noop (w : Widget) :
  file w = None → handleUpload w = w.
Proof. intros Hf. unfold handleUpload. rewrite Hf. reflexivity. Qed.

Lemma handleUpload_without_file_is_noop_witness :
  file initial = None ∧ handleUpload initial = initial.
Proof.
  split; [reflexivity|].
  apply (handleUpload_without_file_is_noop initial). reflexivity.
Defined.

End UploadWidget.

(** * Further properties of the code *)

(** ** The Role Router on every string, and where its answers lead *)

Section Landing.

Import Js React Routing.

(** X1. What [getRoleBasedRoute] returns for every string, in both
    variants: the value inherited from [Object.prototype] when the role
    is one of the names defined there, and otherwise the documented
    landing path, which is ["/dashboard"] for every unmapped role. *)
Theorem getRoleBasedRoute_on_every_string (role : string) :
  ReactRouterApp.getRoleBasedRoute role
    = match ObjectPrototype !! role with
      | Some inherited => inherited
      | None => Str (documented_landing_path role)
      end
  ∧ WouterApp.getRoleBasedRoute role = ReactRouterApp.getRoleBasedRoute role.
Proof.
  split; [|reflexivity].
  destruct (ObjectPrototype !! role) as [v|] eqn:Hproto.
  - unfold ObjectPrototype in Hproto.
    apply elem_of_list_to_map_2 in Hproto.
    repeat (apply elem_of_cons in Hproto as [Hproto|Hproto];
            [simplify_eq; vm_compute; reflexivity|]).
    apply elem_of_nil in Hproto. destruct Hproto.
  - apply getRoleBasedRoute_documented, Hproto.
Qed.

(** Every documented landing path is a protected route of both tables. *)
Lemma landing_path_registered (role : string) :
  ∃ page,
    registered ReactRouterRoutes.AppRouter (documented_landing_path role)
      = Some (ProtectedPage page)
    ∧ registered WouterRoutes.Router (documented_landing_path role)
      = Some (ProtectedPage page).
Proof.
  unfold documented_landing_path.
  repeat (case_decide; [eexists; split; vm_compute; reflexivity|]).
  eexists; split; vm_compute; reflexivity.
Qed.

(** X2. Redirects end after one hop. Once loading is over, and unless the
    session's role is a name defined on [Object.prototype]: without a
    session the guard and the root redirect of both variants send the
    browser to ["/login"], which both tables register as a public page
    that [PublicRoute] then shows; with a session the root redirect sends
    it to a path that both tables register as a protected page, which the
    guard then shows. *)
Theorem redirects_end_after_one_hop (g : Guard) (a : Auth) :
  isLoading a = false →
  (∀ u, user a = Some u → ObjectPrototype !! role u = None) →
  match user a with
  | None =>
      (ReactRouterApp.ProtectedLayout g a).1.2 = Navigate (Str "/login")
      ∧ (WouterApp.ProtectedRoute g a).1.2 = Navigate (Str "/login")
      ∧ ReactRouterApp.RoleBasedRedirectWrapper a = Navigate (Str "/login")
      ∧ WouterApp.RoleBasedRedirectWrapper a = Navigate (Str "/login")
      ∧ registered ReactRouterRoutes.AppRouter "/login"
        = Some (PublicPage GlassLogin)
      ∧ registered WouterRoutes.Router "/login" = Some (PublicPage GlassLogin)
      ∧ ReactRouterApp.PublicRoute a = Children
      ∧ WouterApp.PublicRoute a = Children
  | Some u =>
      ∃ p page,
        ReactRouterApp.RoleBasedRedirectWrapper a = Navigate (Str p)
        ∧ WouterApp.RoleBasedRedirectWrapper a = Navigate (Str p)
        ∧ registered ReactRouterRoutes.AppRouter p = Some (ProtectedPage page)
        ∧ registered WouterRoutes.Router p = Some (ProtectedPage page)
        ∧ (ReactRouterApp.ProtectedLayout g a).1.2 = Protected
        ∧ (WouterApp.ProtectedRoute g a).1.2 = Protected
  end.
Proof.
  intros Hload Hrole.
  rewrite ProtectedRoute_eq, ProtectedLayout_returns.
  unfold ReactRouterApp.ProtectedLayout_view,
    ReactRouterApp.RoleBasedRedirectWrapper, WouterApp.RoleBasedRedirectWrapper,
    ReactRouterApp.PublicRoute, WouterApp.PublicRoute.
  rewrite Hload.
  destruct (user a) as [u|].
  - destruct (landing_path_registered (role u)) as (page & Hrr & Hw).
    exists (documented_landing_path (role u)), page.
    change (WouterApp.getRoleBasedRoute (role u))
      with (ReactRouterApp.getRoleBasedRoute (role u)).
    rewrite (getRoleBasedRoute_documented (role u)) by (apply Hrole; reflexivity).
    repeat split; assumption.
  - repeat split.
Qed.

Lemma redirects_end_after_one_hop_witness :
  ∃ p page,
    ReactRouterApp.RoleBasedRedirectWrapper
      (mkAuth (Some (mkUser 1 "broker")) false (Some 7)) = Navigate (Str p)
    ∧ WouterApp.RoleBasedRedirectWrapper
        (mkAuth (Some (mkUser 1 "broker")) false (Some 7)) = Navigate (Str p)
    ∧ registered ReactRouterRoutes.AppRouter p = Some (ProtectedPage page)
    ∧ registered WouterRoutes.Router p = Some (ProtectedPage page)
    ∧ (ReactRouterApp.ProtectedLayout mount
         (mkAuth (Some (mkUser 1 "broker")) false (Some 7))).1.2 = Protected
    ∧ (WouterApp.ProtectedRoute mount
         (mkAuth (Some (mkUser 1 "broker")) false (Some 7))).1.2 = Protected.
Proof.
  apply (redirects_end_after_one_hop mount
           (mkAuth (Some (mkUser 1 "broker")) false (Some 7))).
  - reflexivity.
  - intros u Hu. injection Hu as <-. vm_compute. reflexivity.
Defined.

End Landing.

(** ** The route tables *)

Section RouteTables.

Import Routing.

Variable matcher : string → string → bool.

Lemma Switch_app (l1 l2 : list (Pattern * Element)) (location : string) :
  Switch matcher (l1 ++ l2) location
    = match Switch matcher l1 location with
      | Some el => Some el
      | None => Switch matcher l2 location
      end.
Proof.
  induction l1 as [|[pat el] l1 IH]; simpl; [reflexivity|].
  destruct (accepts matcher pat location); [reflexivity | exact IH].
Qed.

(** What [<Switch>] renders is a child whose pattern accepts the location. *)
Lemma Switch_Some (l : list (Pattern * Element)) (location : string) el :
  Switch matcher l location = Some el →
  ∃ pat, (pat, el) ∈ l ∧ accepts matcher pat location = true.
Proof.
  induction l as [|[pat el'] l IH]; simpl; [discriminate|].
  destruct (accepts matcher pat location) eqn:Hacc.
  - intros [= <-]. exists pat. split; [left | exact Hacc].
  - intros H. destruct (IH H) as (pat' & Hin & Hacc').
    exists pat'. split; [right; exact Hin | exact Hacc'].
Qed.

(** When [<Switch>] renders nothing, no child accepted the location. *)
Lemma Switch_None (l : list (Pattern * Element)) (location : string) :
  Switch matcher l location = None →
  ∀ pat el, (pat, el) ∈ l → accepts matcher pat location = false.
Proof.
  induction l as [|[pat' el'] l IH]; simpl; intros H pat el Hin.
  - apply elem_of_nil in Hin. destruct Hin.
  - destruct (accepts matcher pat' location) eqn:Hacc; [discriminate|].
    apply elem_of_cons in Hin as [[= -> ->]|Hin]; [exact Hacc|].
    exact (IH H pat el Hin).
Qed.

(** A child listed after another child with the same pattern is never
    the one rendered: removing it changes nothing. *)
Lemma Switch_shadowed (pre post : list (Pattern * Element)) pat el1 el2
    (location : string) :
  (pat, el1) ∈ pre →
  Switch matcher (pre ++ (pat, el2) :: post) location
    = Switch matcher (pre ++ post) location.
Proof.
  intros Hin. rewrite !Switch_app.
  destruct (Switch matcher pre location) eqn:Hpre; [reflexivity|].
  simpl. rewrite (Switch_None pre location Hpre pat el1 Hin). reflexivity.
Qed.

(** X3. The wouter [Router] lists ["/documents"] twice. Whatever the path
    matcher and the location, [<Switch>] renders as if the second entry
    were not there, and the [DocumentManagement] page it mounts is never
    rendered. *)
Theorem wouter_second_documents_route_is_dead (location : string) :
  WouterRoutes.Router_renders matcher location
    = Switch matcher
        (take 16 WouterRoutes.Router ++ drop 17 WouterRoutes.Router) location
  ∧ WouterRoutes.Router !! 16
    = Some (Path "/documents", ProtectedPage DocumentManagement)
  ∧ WouterRoutes.Router_renders matcher location
    ≠ Some (ProtectedPage DocumentManagement).
Proof.
  assert (WouterRoutes.Router_renders matcher location
          = Switch matcher
              (take 16 WouterRoutes.Router ++ drop 17 WouterRoutes.Router)
              location) as Hdead.
  { unfold WouterRoutes.Router_renders.
    change WouterRoutes.Router with
      (take 16 WouterRoutes.Router
       ++ (Path "/documents", ProtectedPage DocumentManagement)
          :: drop 17 WouterRoutes.Router)%list at 1.
    apply (Switch_shadowed _ _ _ (ProtectedPage DocumentManager)).
    vm_compute. do 8 right. left. }
  split; [exact Hdead|]. split; [reflexivity|].
  rewrite Hdead. intros Hsome.
  apply Switch_Some in Hsome as (pat & Hin & _).
  vm_compute in Hin.
  repeat (apply elem_of_cons in Hin as [Hin|Hin]; [discriminate Hin|]).
  apply elem_of_nil in Hin. destruct Hin.
Qed.

(** X4. The wouter [Router] renders something for every location, and
    when no path pattern of the table accepts the location it renders the
    [NotFound] page. *)
Theorem wouter_unmatched_location_is_not_found (location : string) :
  is_Some (WouterRoutes.Router_renders matcher location)
  ∧ ((∀ p el, (Path p, el) ∈ WouterRoutes.Router →
              matcher p location = false) →
     WouterRoutes.Router_renders matcher location = Some (Bare NotFound)).
Proof.
  unfold WouterRoutes.Router_renders.
  change WouterRoutes.Router with
    (take 25 WouterRoutes.Router ++ [(CatchAll, Bare NotFound)])%list.
  rewrite Switch_app. split.
  - destruct (Switch matcher (take 25 WouterRoutes.Router) location);
      [eexists; reflexivity | simpl; eexists; reflexivity].
  - intros Hnone.
    destruct (Switch matcher (take 25 WouterRoutes.Router) location)
      as [el|] eqn:Hsw; [|reflexivity].
    apply Switch_Some in Hsw as (pat & Hin & Hacc).
    assert ((pat, el) ∈ (take 25 WouterRoutes.Router
                         ++ [(CatchAll, Bare NotFound)])%list) as Hin'
      by (apply elem_of_app; left; exact Hin).
    destruct pat as [p|].
    + simpl in Hacc. rewrite (Hnone p el Hin') in Hacc. discriminate.
    + vm_compute in Hin.
      repeat (apply elem_of_cons in Hin as [Hin|Hin]; [discriminate Hin|]).
      apply elem_of_nil in Hin. destruct Hin.
Qed.

(** With path patterns only, and a matcher that on these patterns accepts
    a location exactly when it is the pattern, [<Switch>] renders the
    first element registered under the location. *)
Lemma Switch_registered (l : list (Pattern * Element)) (location : string) :
  Forall (λ r, r.1 ≠ CatchAll) l →
  (∀ q el, (Path q, el) ∈ l → matcher q location = true ↔ q = location) →
  Switch matcher l location = registered l location.
Proof.
  induction l as [|[pat el] l IH]; intros Hpaths Hexact; [reflexivity|].
  apply Forall_cons in Hpaths as [Hpat Hpaths]. simpl in *.
  destruct pat as [q|]; [|congruence]. simpl.
  assert (∀ q' el', (Path q', el') ∈ l →
            matcher q' location = true ↔ q' = location) as Hexact'
    by (intros q' el' Hin; apply (Hexact q' el'); right; exact Hin).
  destruct (matcher q location) eqn:Hm.
  - apply (Hexact q el) in Hm; [|left]. subst q.
    rewrite decide_True by reflexivity. reflexivity.
  - rewrite decide_False; [apply IH; assumption|].
    intros [= ->]. assert (matcher location location = true) as Ht
      by (apply (Hexact location el); [left | reflexivity]).
    congruence.
Qed.

End RouteTables.

Section RouteTablesCompared.

Import Routing.

Lemma registered_app (l1 l2 : list (Pattern * Element)) (p : string) :
  registered (l1 ++ l2) p
    = match registered l1 p with
      | Some el => Some el
      | None => registered l2 p
      end.
Proof.
  induction l1 as [|[pat el] l1 IH]; simpl; [reflexivity|].
  case_decide; [reflexivity | exact IH].
Qed.

Lemma wouter_unmatched_location_is_not_found_witness :
  WouterRoutes.Router_renders (λ _ _, false) "/nowhere" = Some (Bare NotFound).
Proof.
  apply (wouter_unmatched_location_is_not_found (λ _ _, false) "/nowhere").
  intros p el Hin. reflexivity.
Defined.

(** X5. For a path matcher that, on the paths of the wouter table, accepts
    a location exactly when it equals the path, visiting a location the
    table registers renders the first element registered under it. *)
Theorem wouter_renders_first_registered
    (matcher : string → string → bool) (location : string) (el : Element) :
  (∀ q el', (Path q, el') ∈ WouterRoutes.Router →
            matcher q location = true ↔ q = location) →
  registered WouterRoutes.Router location = Some el →
  WouterRoutes.Router_renders matcher location = Some el.
Proof.
  intros Hexact Hreg. unfold WouterRoutes.Router_renders.
  revert Hexact Hreg.
  change WouterRoutes.Router with
    (take 25 WouterRoutes.Router ++ [(CatchAll, Bare NotFound)])%list.
  intros Hexact Hreg.
  rewrite registered_app in Hreg. rewrite Switch_app.
  rewrite (Switch_registered matcher (take 25 WouterRoutes.Router) location).
  - destruct (registered (take 25 WouterRoutes.Router) location);
      [exact Hreg | discriminate Hreg].
  - vm_compute. repeat (constructor; [discriminate|]). constructor.
  - intros q el' Hin. apply (Hexact q el'), elem_of_app. left. exact Hin.
Qed.

Lemma wouter_renders_first_registered_witness :
  WouterRoutes.Router_renders String.eqb "/documents"
    = Some (ProtectedPage DocumentManager).
Proof.
  apply (wouter_renders_first_registered String.eqb "/documents").
  - intros q el' _. apply String.eqb_eq.
  - reflexivity.
Defined.

(** X6. The two route tables register the same element under every path,
    with two exceptions: ["/users"] exists only in the react-router table,
    and ["/documents"] mounts [DocumentManagement] there but
    [DocumentManager] in the wouter table. *)
Theorem route_tables_compared (p : string) :
  (p ≠ "/users" → p ≠ "/documents" →
   registered ReactRouterRoutes.AppRouter p = registered WouterRoutes.Router p)
  ∧ registered ReactRouterRoutes.AppRouter "/users"
    = Some (ProtectedPage UserManagement)
  ∧ registered WouterRoutes.Router "/users" = None
  ∧ registered ReactRouterRoutes.AppRouter "/documents"
    = Some (ProtectedPage DocumentManagement)
  ∧ registered WouterRoutes.Router "/documents"
    = Some (ProtectedPage DocumentManager).
Proof.
  split; [|repeat split].
  intros Husers Hdocs.
  unfold ReactRouterRoutes.AppRouter, WouterRoutes.Router.
  cbn [registered].
  repeat (let Heq := fresh "Heq" in
          case_decide as Heq;
          [ injection Heq as <-;
            first [ congruence | vm_compute; reflexivity ] |]).
  reflexivity.
Qed.

Lemma route_tables_compared_witness :
  registered ReactRouterRoutes.AppRouter "/broker"
    = registered WouterRoutes.Router "/broker".
Proof.
  apply (route_tables_compared "/broker"); discriminate.
Defined.

End RouteTablesCompared.

(** ** More on the guards *)

Section Guards.

Import React ReactRouterApp.

(** X7. The Public Route Gate, in both variants, shows the public page
    exactly when loading is over and there is no session, and hands over
    to the role-based redirect exactly when loading is over and there is
    a session. *)
Theorem PublicRoute_decision (a : Auth) :
  (PublicRoute a = Children ↔ isLoading a = false ∧ user a = None)
  ∧ (PublicRoute a = RoleBasedRedirect
     ↔ isLoading a = false ∧ is_Some (user a))
  ∧ WouterApp.PublicRoute a = PublicRoute a.
Proof.
  unfold PublicRoute, WouterApp.PublicRoute.
  destruct (isLoading a), (user a) as [u|]; repeat split;
    try discriminate; try reflexivity;
    try (intros [? ?]; discriminate); try (intros [? [? ?]]; discriminate);
    eauto.
Qed.

Lemma renders_views (props : list Auth) (g : Guard) :
  (renders ProtectedLayout g props).1.2 = map ProtectedLayout_view props.
Proof.
  revert g. induction props as [|a rest IH]; intros g; [reflexivity|].
  simpl. pose proof (ProtectedLayout_returns g a) as Hv.
  destruct (ProtectedLayout g a) as [[g1 v] calls]. simpl in Hv. subst v.
  specialize (IH g1).
  destruct (renders ProtectedLayout g1 rest) as [[g2 vs] calls']. simpl in *.
  rewrite IH. reflexivity.
Qed.

(** The view of one render is settled by the loading flag and by whether
    a session is present. *)
Lemma view_by_loading_and_session (a : Auth) :
  ProtectedLayout_view a
    = if isLoading a then Spinner
      else if bool_decide (is_Some (user a)) then Protected
      else Navigate (Js.Str "/login").
Proof.
  unfold ProtectedLayout_view.
  destruct (isLoading a); [reflexivity|].
  destruct (user a) as [u|]; [|reflexivity].
  rewrite bool_decide_eq_true_2 by (eexists; reflexivity). reflexivity.
Qed.

(** X8. What a guard instance of either variant shows over any sequence
    of renders depends only on the loading flag and on whether a session
    is present: not on the role, not on the recorded baseline, not on
    earlier renders. Two instances, in whatever state, rendered with
    sequences that agree render by render on the loading flag and on the
    presence of a session (and differ freely in roles, user objects and
    [logout] references) return the same views; and each view is the
    placeholder while loading, the protected layout when loading is over
    and a session is present, and the redirect to the login path when
    loading is over and there is none. *)
Theorem guard_views_ignore_role
    (props props' : list Auth) (g g' : Guard) :
  Forall2 (λ a a', isLoading a = isLoading a'
                   ∧ (is_Some (user a) ↔ is_Some (user a'))) props props' →
  (renders ProtectedLayout g props).1.2
    = (renders ProtectedLayout g' props').1.2
  ∧ (renders WouterApp.ProtectedRoute g props).1.2
    = (renders WouterApp.ProtectedRoute g' props').1.2
  ∧ (renders ProtectedLayout g props).1.2
    = map (λ a, if isLoading a then Spinner
                else if bool_decide (is_Some (user a)) then Protected
                else Navigate (Js.Str "/login")) props
  ∧ (renders WouterApp.ProtectedRoute g props).1.2
    = (renders ProtectedLayout g props).1.2.
Proof.
  intros Hsame. rewrite ProtectedRoute_eq, !renders_views.
  assert (map ProtectedLayout_view props = map ProtectedLayout_view props')
    as Heq.
  { induction Hsame as [|a a' rest rest' [Hload Huser] Hrest IH];
      [reflexivity|].
    simpl. rewrite IH. f_equal.
    rewrite !view_by_loading_and_session, Hload.
    destruct (isLoading a'); [reflexivity|].
    rewrite (bool_decide_ext _ _ Huser). reflexivity. }
  repeat split; try exact Heq.
  apply map_ext. intros a. apply view_by_loading_and_session.
Qed.

Lemma guard_views_ignore_role_witness :
  (renders ProtectedLayout mount
     [ mkAuth (Some (mkUser 1 "admin")) false (Some 7);
       mkAuth (Some (mkUser 2 "banned")) true None;
       mkAuth None false None ]).1.2
  = (renders ProtectedLayout
       {| initialRoleRef := Some "ca"; lastDeps := Some (Some 5, None) |}
       [ mkAuth (Some (mkUser 8 EmptyString)) false None;
         mkAuth (Some (mkUser 9 "user")) true (Some 3);
         mkAuth None false (Some 3) ]).1.2.
Proof.
  apply (guard_views_ignore_role
           [ mkAuth (Some (mkUser 1 "admin")) false (Some 7);
             mkAuth (Some (mkUser 2 "banned")) true None;
             mkAuth None false None ]
           [ mkAuth (Some (mkUser 8 EmptyString)) false None;
             mkAuth (Some (mkUser 9 "user")) true (Some 3);
             mkAuth None false (Some 3) ]
           mount
           {| initialRoleRef := Some "ca"; lastDeps := Some (Some 5, None) |}).
  repeat (constructor; [split; [reflexivity | simpl; split; eauto] |]).
  constructor.
Defined.

(** X9. On the render that detects a role change (non-empty baseline, a
    new user object or [logout] reference, a role other than the
    baseline, [logout] supplied, loading over) the guard invokes [logout]
    and still returns the protected layout with the child view; the
    baseline is kept. *)
Theorem drift_render_still_shows_protected
    (g : Guard) (a : Auth) (b : string) (u : User) (f : ref_id) :
  initialRoleRef g = Some b → b ≠ EmptyString →
  user a = Some u → role u ≠ b → logout a = Some f →
  lastDeps g ≠ Some (deps a) →
  isLoading a = false →
  ProtectedLayout g a
    = ({| initialRoleRef := Some b; lastDeps := Some (deps a) |},
       Protected, [f])
  ∧ WouterApp.ProtectedRoute g a = ProtectedLayout g a.
Proof.
  intros Hg Hb Hu Hr Hf Hd Hload. split; [|reflexivity].
  pose proof (render_with_drift g a b u Hg Hb Hu Hd) as Hcalls.
  rewrite decide_False, Hf in Hcalls by exact Hr.
  pose proof (render_keeps_baseline g a b Hg Hb) as Hbase.
  pose proof (lastDeps_after_render g a) as Hdeps.
  pose proof (ProtectedLayout_returns g a) as Hview.
  unfold ProtectedLayout_view in Hview. rewrite Hload, Hu in Hview.
  destruct (ProtectedLayout g a) as [[[cur d] v] calls]. simpl in *.
  congruence.
Qed.

Lemma drift_render_still_shows_protected_witness :
  ProtectedLayout
    {| initialRoleRef := Some "admin"; lastDeps := Some (Some 1, Some 7) |}
    (mkAuth (Some (mkUser 2 "user")) false (Some 7))
  = ({| initialRoleRef := Some "admin"; lastDeps := Some (Some 2, Some 7) |},
     Protected, [7])
  ∧ WouterApp.ProtectedRoute
      {| initialRoleRef := Some "admin"; lastDeps := Some (Some 1, Some 7) |}
      (mkAuth (Some (mkUser 2 "user")) false (Some 7))
    = ProtectedLayout
        {| initialRoleRef := Some "admin"; lastDeps := Some (Some 1, Some 7) |}
        (mkAuth (Some (mkUser 2 "user")) false (Some 7)).
Proof.
  apply (drift_render_still_shows_protected
           {| initialRoleRef := Some "admin";
              lastDeps := Some (Some 1, Some 7) |}
           (mkAuth (Some (mkUser 2 "user")) false (Some 7))
           "admin" (mkUser 2 "user") 7);
    try reflexivity; discriminate.
Defined.

Lemma renders_app (g : Guard) (l1 l2 : list Auth) :
  (renders ProtectedLayout g (l1 ++ l2)).1.1
    = (renders ProtectedLayout (renders ProtectedLayout g l1).1.1 l2).1.1
  ∧ (renders ProtectedLayout g (l1 ++ l2)).2
    = ((renders ProtectedLayout g l1).2
       ++ (renders ProtectedLayout (renders ProtectedLayout g l1).1.1 l2).2)%list.
Proof.
  revert g. induction l1 as [|a l1 IH]; intros g; [split; reflexivity|].
  rewrite <- app_comm_cons.
  destruct (renders_cons g a (l1 ++ l2)) as [-> ->].
  destruct (renders_cons g a l1) as [-> ->].
  destruct (IH (ProtectedLayout g a).1.1) as [-> ->].
  split; [reflexivity | apply app_assoc].
Qed.

(** One render in which the session, if any, has role [r], by an instance
    whose cell is empty or holds [r]: nothing is invoked and the cell is
    again empty or [r]. *)
Lemma render_stable_role (g : Guard) (a : Auth) (r : string) :
  (initialRoleRef g = None ∨ initialRoleRef g = Some r) →
  (∀ u, user a = Some u → role u = r) →
  (ProtectedLayout g a).2 = []
  ∧ (initialRoleRef (ProtectedLayout g a).1.1 = None
     ∨ initialRoleRef (ProtectedLayout g a).1.1 = Some r).
Proof.
  intros Hg Hrole.
  destruct (ProtectedLayout_commit g a) as [-> ->].
  unfold commit. destruct (effect_due g a); [|split; [reflexivity | exact Hg]].
  unfold ProtectedLayout_effect.
  destruct (user a) as [u|]; [|split; [reflexivity | exact Hg]].
  rewrite (Hrole u eq_refl).
  assert ((if ref_is_falsy (initialRoleRef g) then Some r
           else initialRoleRef g) = Some r) as ->.
  { destruct Hg as [-> | ->]; [reflexivity|].
    destruct (ref_is_falsy (Some r)); reflexivity. }
  simpl. rewrite String.eqb_refl. simpl. split; [reflexivity | right; reflexivity].
Qed.

(** X10. No spurious logout: while every session a mounted guard of
    either variant sees has the same role (the empty role included),
    [logout] is never invoked, however many renders there are and
    whatever the user objects, [logout] references and loading flags. *)
Theorem stable_role_never_logs_out (r : string) (props : list Auth) :
  Forall (λ a, ∀ u, user a = Some u → role u = r) props →
  (renders ProtectedLayout mount props).2 = []
  ∧ (renders WouterApp.ProtectedRoute mount props).2 = [].
Proof.
  intros Hall. rewrite ProtectedRoute_eq.
  assert (∀ g, (initialRoleRef g = None ∨ initialRoleRef g = Some r) →
               (renders ProtectedLayout g props).2 = []) as Hgen.
  { induction Hall as [|a rest Ha Hrest IH]; intros g Hg; [reflexivity|].
    destruct (renders_cons g a rest) as [_ ->].
    destruct (render_stable_role g a r Hg Ha) as [-> Hg'].
    simpl. apply IH, Hg'. }
  split; apply Hgen; left; reflexivity.
Qed.

Lemma stable_role_never_logs_out_witness :
  (renders ProtectedLayout mount
     [ mkAuth None true (Some 7);
       mkAuth (Some (mkUser 1 "ca")) false (Some 7);
       mkAuth (Some (mkUser 2 "ca")) false (Some 8) ]).2 = []
  ∧ (renders WouterApp.ProtectedRoute mount
       [ mkAuth None true (Some 7);
         mkAuth (Some (mkUser 1 "ca")) false (Some 7);
         mkAuth (Some (mkUser 2 "ca")) false (Some 8) ]).2 = [].
Proof.
  apply (stable_role_never_logs_out "ca").
  repeat constructor; intros u [= <-]; reflexivity.
Defined.

(** Renders without a session leave the cell of a fresh instance empty
    and never record a user object in the dependency array. *)
Lemma renders_without_session (before : list Auth) (g : Guard) :
  Forall (λ a, user a = None) before →
  initialRoleRef g = None →
  (∀ d, lastDeps g = Some d → d.1 = None) →
  initialRoleRef (renders ProtectedLayout g before).1.1 = None
  ∧ (∀ d, lastDeps (renders ProtectedLayout g before).1.1 = Some d
          → d.1 = None).
Proof.
  intros Hall. revert g.
  induction Hall as [|a rest Ha Hrest IH]; intros g Hg Hd; [split; assumption|].
  destruct (renders_cons g a rest) as [-> _].
  apply IH.
  - destruct (ProtectedLayout_commit g a) as [-> _].
    unfold commit. destruct (effect_due g a); [|exact Hg].
    unfold ProtectedLayout_effect. rewrite Ha. exact Hg.
  - intros d. rewrite lastDeps_after_render. intros [= <-].
    unfold deps. rewrite Ha. reflexivity.
Qed.

(** X11. The baseline a guard of either variant holds is the role of the
    first session it sees: after any number of renders without a session
    the cell is still empty; the first render with a session records
    that session's role, even while loading; and when this role is not
    empty it is what the cell holds after any further renders. *)
Theorem baseline_is_first_session_role
    (before later : list Auth) (a : Auth) (u : User) :
  Forall (λ a', user a' = None) before →
  user a = Some u →
  role u ≠ EmptyString →
  initialRoleRef (renders ProtectedLayout mount before).1.1 = None
  ∧ initialRoleRef
      (renders ProtectedLayout mount (before ++ a :: later)).1.1
    = Some (role u)
  ∧ initialRoleRef
      (renders WouterApp.ProtectedRoute mount (before ++ a :: later)).1.1
    = Some (role u).
Proof.
  intros Hbefore Hu Hrole. rewrite ProtectedRoute_eq.
  destruct (renders_without_session before mount Hbefore eq_refl)
    as [Hnone Hdeps]; [discriminate|].
  split; [exact Hnone|].
  assert (initialRoleRef
            (renders ProtectedLayout mount (before ++ a :: later)).1.1
          = Some (role u)) as Hgoal; [|split; exact Hgoal].
  destruct (renders_app mount before (a :: later)) as [-> _].
  set (g := (renders ProtectedLayout mount before).1.1) in *.
  destruct (renders_cons g a later) as [-> _].
  apply renders_keep_baseline; [|exact Hrole].
  destruct (ProtectedLayout_commit g a) as [-> _].
  unfold commit, effect_due.
  assert ((match lastDeps g with
           | Some d => negb (bool_decide (d = deps a))
           | None => true
           end) = true) as ->.
  { destruct (lastDeps g) as [d|] eqn:Hd; [|reflexivity].
    apply negb_true_iff, bool_decide_eq_false. intros ->.
    specialize (Hdeps _ eq_refl). unfold deps in Hdeps.
    rewrite Hu in Hdeps. discriminate. }
  unfold ProtectedLayout_effect. rewrite Hu, Hnone. simpl.
  rewrite String.eqb_refl. reflexivity.
Qed.

Lemma baseline_is_first_session_role_witness :
  initialRoleRef
    (renders ProtectedLayout mount [mkAuth None true (Some 7)]).1.1 = None
  ∧ initialRoleRef
      (renders ProtectedLayout mount
         ([mkAuth None true (Some 7)]
          ++ mkAuth (Some (mkUser 1 "ca")) true (Some 7)
             :: [mkAuth (Some (mkUser 2 "admin")) false (Some 7)])).1.1
    = Some "ca"
  ∧ initialRoleRef
      (renders WouterApp.ProtectedRoute mount
         ([mkAuth None true (Some 7)]
          ++ mkAuth (Some (mkUser 1 "ca")) true (Some 7)
             :: [mkAuth (Some (mkUser 2 "admin")) false (Some 7)])).1.1
    = Some "ca".
Proof.
  apply (baseline_is_first_session_role
           [mkAuth None true (Some 7)]
           [mkAuth (Some (mkUser 2 "admin")) false (Some 7)]
           (mkAuth (Some (mkUser 1 "ca")) true (Some 7))
           (mkUser 1 "ca")).
  - repeat constructor.
  - reflexivity.
  - discriminate.
Defined.

(** X12. A guard of either variant invokes nothing but the [logout] it
    was handed: every call it makes over a sequence of renders is the
    [logout] reference of one of those renders, and that render came with
    a session. Renders without a session invoke nothing. *)
Theorem guard_invokes_only_supplied_logout
    (props : list Auth) (g : Guard) (f : ref_id) :
  f ∈ (renders ProtectedLayout g props).2 →
  (∃ a, a ∈ props ∧ logout a = Some f ∧ is_Some (user a))
  ∧ (renders WouterApp.ProtectedRoute g props).2
    = (renders ProtectedLayout g props).2.
Proof.
  intros Hin. split; [|reflexivity].
  revert g Hin. induction props as [|a rest IH]; intros g Hin.
  - apply elem_of_nil in Hin. destruct Hin.
  - destruct (renders_cons g a rest) as [_ Hcalls]. rewrite Hcalls in Hin.
    apply elem_of_app in Hin as [Hin|Hin].
    + exists a. split; [left|].
      destruct (ProtectedLayout_commit g a) as [_ Hc]. rewrite Hc in Hin.
      unfold commit in Hin. destruct (effect_due g a);
        [|apply elem_of_nil in Hin; destruct Hin].
      unfold ProtectedLayout_effect in Hin.
      destruct (user a) as [u|]; [|apply elem_of_nil in Hin; destruct Hin].
      destruct (ref_differs _ _); [|apply elem_of_nil in Hin; destruct Hin].
      destruct (logout a) as [f'|]; [|apply elem_of_nil in Hin; destruct Hin].
      simpl in Hin. apply list_elem_of_singleton in Hin. subst f'.
      split; [reflexivity | eexists; reflexivity].
    + destruct (IH _ Hin) as (a' & Ha' & Hl & Hu).
      exists a'. split; [right; exact Ha' | split; assumption].
Qed.

Lemma guard_invokes_only_supplied_logout_witness :
  (∃ a, a ∈ [ mkAuth (Some (mkUser 1 "admin")) false (Some 7);
              mkAuth (Some (mkUser 2 "user")) false (Some 7) ]
        ∧ logout a = Some 7 ∧ is_Some (user a))
  ∧ (renders WouterApp.ProtectedRoute mount
       [ mkAuth (Some (mkUser 1 "admin")) false (Some 7);
         mkAuth (Some (mkUser 2 "user")) false (Some 7) ]).2
    = (renders ProtectedLayout mount
         [ mkAuth (Some (mkUser 1 "admin")) false (Some 7);
           mkAuth (Some (mkUser 2 "user")) false (Some 7) ]).2.
Proof.
  apply (guard_invokes_only_supplied_logout
           [ mkAuth (Some (mkUser 1 "admin")) false (Some 7);
             mkAuth (Some (mkUser 2 "user")) false (Some 7) ] mount 7).
  vm_compute. left.
Defined.

End Guards.

(** ** More on the upload widget *)

Section UploadWidgetMore.

Import FileUploader FileUploaderView.

Lemma run_snoc (w : Widget) (es : list Event) (e : Event) :
  run w (es ++ [e]) = step (run w es) e.
Proof. unfold run. rewrite foldl_app. reflexivity. Qed.

(** X13. Picking or dropping a non-empty list of files while no upload
    is in progress selects the first file, lowers the success flag and
    leaves the submit button enabled, whatever the widget showed before
    (a finished upload included); no upload is started by it. An empty
    list changes nothing beyond ending the drag highlight. *)
Theorem selecting_a_file_enables_submit (w : Widget) (f : File) (fs : list File) :
  isUploading w = false →
  file (step w (FileChange (f :: fs))) = Some f
  ∧ disabled (step w (FileChange (f :: fs))) = false
  ∧ uploadCalls (step w (FileChange (f :: fs))) = uploadCalls w
  ∧ file (step w (Drop (f :: fs))) = Some f
  ∧ disabled (step w (Drop (f :: fs))) = false
  ∧ uploadCalls (step w (Drop (f :: fs))) = uploadCalls w
  ∧ step w (FileChange []) = w
  ∧ step w (Drop []) = setIsDragging false w.
Proof.
  intros Hu. unfold disabled. simpl. rewrite Hu. repeat split.
Qed.

Lemma selecting_a_file_enables_submit_witness :
  disabled (step (run initial [FileChange [mkFile "a.pdf" 1]; ClickUpload;
                               UploadSettled 0 true])
              (FileChange [mkFile "b.pdf" 2])) = false.
Proof.
  apply (selecting_a_file_enables_submit
           (run initial [FileChange [mkFile "a.pdf" 1]; ClickUpload;
                         UploadSettled 0 true])
           (mkFile "b.pdf" 2) []).
  reflexivity.
Defined.

(** X14. In every reachable state, when a pending upload resolves the
    success flag goes up, the uploading flag goes down, the selection is
    kept, the button stays disabled, nothing is logged and one reset
    timer is scheduled; when that timer fires the selection is cleared
    and the success flag lowered. *)
Theorem resolved_upload_resets_after_timer (es : list Event) (i : nat) :
  is_Some (pendingUploads (run initial es) !! i) →
  let w := step (run initial es) (UploadSettled i true) in
  uploadSuccess w = true
  ∧ isUploading w = false
  ∧ disabled w = true
  ∧ file w = file (run initial es)
  ∧ pendingUploads w = []
  ∧ errorsLogged w = errorsLogged (run initial es)
  ∧ timers w = S (timers (run initial es))
  ∧ file (step w TimerFired) = None
  ∧ uploadSuccess (step w TimerFired) = false
  ∧ disabled (step w TimerFired) = true.
Proof.
  intros [f0 Hi].
  pose proof (upload_inv_step _ (UploadSettled i true)
                (upload_inv_run es initial upload_inv_initial)) as [Hlen _].
  revert Hlen. simpl. rewrite Hi. simpl. intros Hlen.
  unfold disabled. simpl.
  repeat split; try reflexivity.
  - apply orb_true_r.
  - apply nil_length_inv, Hlen.
Qed.

Lemma resolved_upload_resets_after_timer_witness :
  file (step (step (run initial [FileChange [mkFile "a.pdf" 1]; ClickUpload])
                (UploadSettled 0 true)) TimerFired) = None.
Proof.
  apply (resolved_upload_resets_after_timer
           [FileChange [mkFile "a.pdf" 1]; ClickUpload] 0).
  eexists. reflexivity.
Defined.

(** The selected file and every uploaded file were picked or dropped. *)
Lemma selected_and_uploaded_were_chosen (es : list Event) :
  (∀ f, file (run initial es) = Some f → ∃ e, e ∈ es ∧ selects e = Some f)
  ∧ (∀ f, f ∈ uploadCalls (run initial es) →
          ∃ e, e ∈ es ∧ selects e = Some f).
Proof.
  induction es as [|e es [IHfile IHcalls]] using rev_ind.
  - split; intros f H; [discriminate H | apply elem_of_nil in H; destruct H].
  - rewrite run_snoc.
    assert (∀ f, (∃ e', e' ∈ es ∧ selects e' = Some f) →
                 ∃ e', e' ∈ (es ++ [e])%list ∧ selects e' = Some f) as Hweak.
    { intros f (e' & Hin & Hsel). exists e'. split; [|exact Hsel].
      apply elem_of_app. left. exact Hin. }
    assert (∀ f, selects e = Some f →
                 ∃ e', e' ∈ (es ++ [e])%list ∧ selects e' = Some f) as Hnew.
    { intros f Hsel. exists e. split; [|exact Hsel].
      apply elem_of_app. right. left. }
    set (w := run initial es) in *.
    destruct e as [ | | |files|files| | |i ok| ]; simpl.
    + split; intros f H; apply Hweak; auto.
    + split; intros f H; apply Hweak; auto.
    + split; intros f H; apply Hweak; auto.
    + destruct files as [|f0 files]; simpl;
        (split; intros f H; [|apply Hweak; auto]).
      * apply Hweak; auto.
      * injection H as <-. apply Hnew. reflexivity.
    + destruct files as [|f0 files]; simpl;
        (split; intros f H; [|apply Hweak; auto]).
      * apply Hweak; auto.
      * injection H as <-. apply Hnew. reflexivity.
    + destruct (disabled w); [split; intros f H; apply Hweak; auto|].
      unfold handleUpload. destruct (file w) as [f0|] eqn:Hf;
        [|split; intros f H; [congruence | apply Hweak; auto]].
      simpl. split; intros f H; apply Hweak.
      * apply IHfile. congruence.
      * apply elem_of_app in H as [H|H]; [auto|].
        apply list_elem_of_singleton in H. subst f. apply IHfile. reflexivity.
    + split; intros f H; [discriminate H | apply Hweak; auto].
    + destruct (pendingUploads w !! i) as [f1|];
        [|split; intros f H; apply Hweak; auto].
      destruct ok; simpl; split; intros f H; apply Hweak; auto.
    + destruct (timers w); simpl;
        (split; intros f H; [|apply Hweak; auto]).
      * apply Hweak; auto.
      * discriminate H.
Qed.

(** X15. The widget hands to the injected upload operation only files
    the user chose: every file it was ever called with is the first file
    of some earlier drop or pick. *)
Theorem only_chosen_files_are_uploaded (es : list Event) (f : File) :
  f ∈ uploadCalls (run initial es) →
  ∃ e, e ∈ es ∧ selects e = Some f.
Proof. intros H. apply (selected_and_uploaded_were_chosen es), H. Qed.

Lemma only_chosen_files_are_uploaded_witness :
  ∃ e, e ∈ [Drop [mkFile "a.pdf" 1; mkFile "b.pdf" 2]; ClickUpload]
       ∧ selects e = Some (mkFile "a.pdf" 1).
Proof.
  apply (only_chosen_files_are_uploaded
           [Drop [mkFile "a.pdf" 1; mkFile "b.pdf" 2]; ClickUpload]
           (mkFile "a.pdf" 1)).
  vm_compute. left.
Defined.

(** X16. A scheduled reset is not cancelled by a new selection: in any
    state with a reset timer outstanding, removing the file and choosing
    another one does not stop the timer, and when it fires the new
    selection is cleared and the button disabled. *)
Theorem pending_reset_clears_new_selection
    (w : Widget) (f : File) (fs : list File) :
  timers w ≠ 0 →
  timers (run w [ClickRemove; FileChange (f :: fs)]) = timers w
  ∧ file (run w [ClickRemove; FileChange (f :: fs)]) = Some f
  ∧ file (run w [ClickRemove; FileChange (f :: fs); TimerFired]) = None
  ∧ disabled (run w [ClickRemove; FileChange (f :: fs); TimerFired]) = true
  ∧ file (run w [ClickRemove; Drop (f :: fs); TimerFired]) = None.
Proof.
  intros Ht. unfold run. simpl.
  destruct (timers w) as [|n]; [congruence|]. repeat split.
Qed.

Lemma pending_reset_clears_new_selection_witness :
  file (run (run initial [FileChange [mkFile "a.pdf" 1]; ClickUpload;
                          UploadSettled 0 true])
          [ClickRemove; FileChange [mkFile "b.pdf" 2]; TimerFired]) = None.
Proof.
  apply (pending_reset_clears_new_selection
           (run initial [FileChange [mkFile "a.pdf" 1]; ClickUpload;
                         UploadSettled 0 true])
           (mkFile "b.pdf" 2) []).
  vm_compute. discriminate.
Defined.

Lemma step_while_uploading (w : Widget) (e : Event) :
  isUploading w = true →
  is_settlement e = false →
  isUploading (step w e) = true
  ∧ pendingUploads (step w e) = pendingUploads w
  ∧ uploadCalls (step w e) = uploadCalls w.
Proof.
  intros Hu Hs.
  destruct e as [ | | |files|files| | |i ok| ]; simpl; try discriminate Hs;
    try (repeat split; assumption).
  - destruct files; repeat split; assumption.
  - destruct files; repeat split; assumption.
  - unfold disabled. rewrite Hu, orb_true_r. repeat split; assumption.
  - destruct (timers w); repeat split; assumption.
Qed.

(** X17. An upload in progress cannot be cancelled or doubled: from any
    state with the uploading flag up, no user gesture and no timer, in
    any number and order, lowers the flag, enables the button, drops the
    pending upload or starts another one; only the settling of the
    upload ends it. *)
Theorem upload_in_progress_until_settled (w : Widget) (es : list Event) :
  isUploading w = true →
  Forall (λ e, is_settlement e = false) es →
  isUploading (run w es) = true
  ∧ disabled (run w es) = true
  ∧ pendingUploads (run w es) = pendingUploads w
  ∧ uploadCalls (run w es) = uploadCalls w.
Proof.
  intros Hu Hall.
  assert (isUploading (run w es) = true
          ∧ pendingUploads (run w es) = pendingUploads w
          ∧ uploadCalls (run w es) = uploadCalls w) as (H1 & H2 & H3).
  { revert w Hu. induction Hall as [|e es He Hes IH]; intros w Hu;
      [repeat split; assumption|].
    destruct (step_while_uploading w e Hu He) as (Hu' & Hp & Hc).
    change (run w (e :: es)) with (run (step w e) es).
    destruct (IH (step w e) Hu') as (-> & -> & ->). repeat split; assumption. }
  repeat split; try assumption.
  unfold disabled. rewrite H1, orb_true_r. reflexivity.
Qed.

Lemma upload_in_progress_until_settled_witness :
  disabled (run (run initial [FileChange [mkFile "a.pdf" 1]; ClickUpload])
              [ClickRemove; Drop [mkFile "b.pdf" 2]; ClickUpload; TimerFired])
    = true.
Proof.
  apply (upload_in_progress_until_settled
           (run initial [FileChange [mkFile "a.pdf" 1]; ClickUpload])
           [ClickRemove; Drop [mkFile "b.pdf" 2]; ClickUpload; TimerFired]).
  - reflexivity.
  - repeat constructor.
Defined.

Lemma accounted_step (w : Widget) (e : Event) :
  (timers w + length (pendingUploads w) ≤ length (uploadCalls w))%nat →
  (errorsLogged w + length (pendingUploads w) ≤ length (uploadCalls w))%nat →
  (timers (step w e) + length (pendingUploads (step w e))
   ≤ length (uploadCalls (step w e)))%nat
  ∧ (errorsLogged (step w e) + length (pendingUploads (step w e))
     ≤ length (uploadCalls (step w e)))%nat.
Proof.
  intros Ht He.
  destruct e as [ | | |files|files| | |i ok| ]; simpl; try (split; assumption).
  - destruct files; split; assumption.
  - destruct files; split; assumption.
  - destruct (disabled w); [split; assumption|].
    unfold handleUpload. destruct (file w); [|split; assumption].
    simpl. rewrite !length_app. simpl. lia.
  - destruct (pendingUploads w !! i) as [f|] eqn:Hi; [|split; assumption].
    assert (length (delete i (pendingUploads w))
            = length (pendingUploads w) - 1)%nat as Hdel
      by (apply length_delete; eauto).
    apply lookup_lt_Some in Hi.
    destruct ok; simpl; rewrite Hdel; lia.
  - destruct (timers w) eqn:Hn; simpl; try rewrite Hn; simpl; lia.
Qed.

(** X18. In every reachable state the reset timers outstanding and the
    uploads still pending together never exceed the calls made to the
    injected upload operation, and neither do the errors logged together
    with the pending uploads: a timer is scheduled, and an error logged,
    only for an upload that has settled. *)
Theorem timers_and_errors_accounted_for (es : list Event) :
  (timers (run initial es) + length (pendingUploads (run initial es))
   ≤ length (uploadCalls (run initial es)))%nat
  ∧ (errorsLogged (run initial es) + length (pendingUploads (run initial es))
     ≤ length (uploadCalls (run initial es)))%nat.
Proof.
  induction es as [|e es [IHt IHe]] using rev_ind.
  - simpl. split; lia.
  - rewrite run_snoc. apply accounted_step; assumption.
Qed.

(** X19. What the button says, in every reachable state: it reads
    "Uploading..." exactly while an upload is pending; whenever it is
    enabled it reads "Upload File" and the preview of the selected file
    is shown; and while it reads "Upload Successful" it is disabled and
    nothing is pending. *)
Theorem button_caption_reflects_upload (es : list Event) :
  (buttonLabel (run initial es) = Uploading
   ↔ pendingUploads (run initial es) ≠ [])
  ∧ (disabled (run initial es) = false →
     buttonLabel (run initial es) = UploadFile
     ∧ ∃ f, panel (run initial es) = Preview f)
  ∧ (buttonLabel (run initial es) = UploadSuccessful →
     disabled (run initial es) = true ∧ pendingUploads (run initial es) = []).
Proof.
  destruct (upload_inv_run es initial upload_inv_initial) as [Hlen Hsucc].
  set (w := run initial es) in *.
  unfold buttonLabel, panel, disabled.
  destruct (isUploading w) eqn:Hu.
  - repeat split.
    + intros _ Hnil. rewrite Hnil in Hlen. discriminate Hlen.
    + rewrite orb_true_r in H. discriminate H.
    + rewrite orb_true_r in H. discriminate H.
    + discriminate H.
    + discriminate H.
  - apply nil_length_inv in Hlen.
    destruct (uploadSuccess w) eqn:Hs, (file w) as [f|] eqn:Hf; simpl;
      repeat split; try discriminate; try congruence; eauto.
Qed.

Lemma button_caption_reflects_upload_witness :
  buttonLabel (run initial [FileChange [mkFile "a.pdf" 1]]) = UploadFile
  ∧ ∃ f, panel (run initial [FileChange [mkFile "a.pdf" 1]]) = Preview f.
Proof.
  apply (button_caption_reflects_upload [FileChange [mkFile "a.pdf" 1]]).
  reflexivity.
Defined.

End UploadWidgetMore.
